(** * Proxy mode servers and URL parsing: a shallow embedding

    This development models two modules of the repository:

    - [mitmproxy/proxy/mode_servers.py]: the server instances that bind a
      TCP or UDP listener for a proxy mode, their start/stop lifecycle
      and the demultiplexing of UDP datagrams into connections;
    - [netlib/http/url.py]: the URL parsing function [parse].

    Python objects are modelled by records and inductive types, mutable
    attributes by an explicit [World] that every method threads through,
    and exceptions by a sum type: a method is a function
    [World -> (exn + A) * World], so that the attribute writes made before
    an exception is raised are kept, as they are in Python. *)

From Stdlib Require Import ZArith List String Ascii Bool Lia.
From Stdlib Require Import DecimalString.
Import ListNotations.

#[local] Set Warnings "-register-all".

Local Open Scope Z_scope.
Local Open Scope list_scope.
Local Open Scope string_scope.

(** ** Python values *)

(** The values that appear in connection ids and addresses.  An
    [Address] is a tuple [(host, port)]; [VRef] is an opaque object such
    as a datagram transport, compared by identity. *)
Inductive value : Type :=
| VNone
| VInt (z : Z)
| VStr (s : string)
| VBytes (b : list Byte.byte)
| VTuple (items : list value)
| VRef (oid : nat).

Definition Address : Type := value.

Definition bytes_eqb (a b : list Byte.byte) : bool :=
  if list_eq_dec Byte.byte_eq_dec a b then true else false.

(** Python's [==] on these values. *)
Fixpoint value_eqb (a b : value) {struct a} : bool :=
  match a, b with
  | VNone, VNone => true
  | VInt x, VInt y => Z.eqb x y
  | VStr x, VStr y => String.eqb x y
  | VBytes x, VBytes y => bytes_eqb x y
  | VTuple xs, VTuple ys =>
      (fix items_eqb (l1 l2 : list value) {struct l1} : bool :=
         match l1, l2 with
         | [], [] => true
         | x :: l1', y :: l2' => value_eqb x y && items_eqb l1' l2'
         | _, _ => false
         end) xs ys
  | VRef x, VRef y => Nat.eqb x y
  | _, _ => false
  end.

(** The number of constructors of a value, the measure of the proofs
    about [value_eqb]. *)
Fixpoint value_size (v : value) : nat :=
  match v with
  | VTuple items => S (fold_right (fun x n => (value_size x + n)%nat) O items)
  | _ => 1%nat
  end.

(** [v is None]. *)
Definition is_VNone (v : value) : bool :=
  match v with
  | VNone => true
  | _ => false
  end.

(** [str(n)] for an integer. *)
Definition str_int (z : Z) : string := NilZero.string_of_int (Z.to_int z).

(** [sub in s] for strings. *)
Fixpoint str_contains (sub s : string) : bool :=
  String.prefix sub s ||
  match s with
  | EmptyString => false
  | String _ s' => str_contains sub s'
  end.

(** [s.startswith(p)]. *)
Definition startswith (p s : string) : bool := String.prefix p s.

(** [sep.join(items)]. *)
Definition join (sep : string) (items : list string) : string :=
  String.concat sep items.

(** ** Exceptions *)

(** [OSError(errno, strerror, filename)]; [cause] is the [__cause__] set
    by [raise ... from e].  [TypeError callee] is the error of a call
    whose arguments do not fit the signature of [callee], or of an
    operand of the wrong type.  [OtherException] stands for any other
    subclass of [Exception] raised by a collaborator. *)
Inductive exn : Type :=
| AssertionError
| TypeError (callee : string)
| KeyError (key : string)
| StructError
| AttributeError (name : string)
| ValueError (msg : string)
| UnicodeError
| OSError (errno : Z) (strerror : string) (filename : option string)
          (cause : option exn)
| OtherException (name : string).

(** [isinstance(e, ValueError)]: [UnicodeError] is a subclass of
    [ValueError]. *)
Definition is_ValueError (e : exn) : bool :=
  match e with
  | ValueError _ | UnicodeError => true
  | _ => false
  end.

(** ** Result of an attribute access

    [obj.name] evaluates the getter when [name] is a property (or reads
    the value when it is a plain class attribute), and yields a bound
    method object when [name] is declared with a plain [def]. *)
Inductive attr_value (A : Type) : Type :=
| Val (a : A)
| BoundMethod (call : attr_value A).

Arguments Val {A} a.
Arguments BoundMethod {A} call.

(** Truth value of the result, as [if obj.name:] tests it: a bound
    method object is always true. *)
Definition truthy (v : attr_value bool) : bool :=
  match v with
  | Val b => b
  | BoundMethod _ => true
  end.

(** ** Modes ([mitmproxy.proxy.mode_specs], consumed) *)

(** The attributes and methods of a [ProxyMode] that the servers read.
    [listen_host] and [listen_port] are the mode's methods, applied to
    the default taken from the options. *)
Inductive ProxyMode : Type := mkProxyMode {
  mode_type : string;
  data : string;
  full_spec : string;
  custom_listen_host : option string;
  custom_listen_port : option Z;
  listen_host : option string -> string;
  listen_port : option Z -> Z;
  inner_mode : option ProxyMode
}.

(** [ctx.options], as far as the servers read it. *)
Record Options : Type := mkOptions {
  opt_listen_host : option string;
  opt_listen_port : option Z
}.

(** ** Server instances *)

Inductive server_class : Type :=
| RegularInstance
| UpstreamInstance
| TransparentInstance
| ReverseInstance
| Socks5Instance
| DnsInstance
| UdpInstance.

(** What [__init__] stores: the class, [self.mode], [self.manager] (an
    object identity) and, for [UdpInstance], [self.inner_server]. *)
Inductive ServerInstance : Type := mkServerInstance {
  cls : server_class;
  mode : ProxyMode;
  manager : nat;
  inner_server : option ServerInstance
}.

(** The object returned by [listen]: an [asyncio.Server] or a
    [udp.UdpServer].  [sockets] lists, for each of its sockets, what
    [getsockname()] does: it returns an address or raises. *)
Record Server : Type := mkServer {
  server_id : nat;
  sockets : list (exn + Address)
}.

(** ** Connection handlers *)

Inductive Layer : Type :=
| InitialLayer
| HttpProxy
| HttpUpstreamProxy
| TransparentProxy
| ReverseProxy
| Socks5Proxy
| DNSLayer.

(** The attributes of a [ProxyConnectionHandler] that the datagram path
    writes; [reader_queue] is the content of its [DatagramReader]. *)
Record ProxyConnectionHandler : Type := mkHandler {
  client_transport_protocol : string;
  connection_timeout : option Z;
  server_address : option Address;
  server_transport_protocol : string;
  layer : Layer;
  reader_queue : list (value * Address)
}.

(** ** The world

    The mutable attributes of one instance ([_server], [_listen_addrs],
    [last_exception]), the manager's [connections] dict (insertion
    ordered, the values are references into [handlers]), the tasks
    created on the event loop that have not run yet, and the entries
    logged through [ctx.log] as [(level, message)]. *)
Record World : Type := mkWorld {
  _server : option Server;
  _listen_addrs : list Address;
  last_exception : option exn;
  connections : list (value * nat);
  handlers : list ProxyConnectionHandler;
  tasks : list (value * nat);
  ctx_log : list (string * string)
}.

Definition set__server (s : option Server) (w : World) : World :=
  mkWorld s (_listen_addrs w) (last_exception w) (connections w)
          (handlers w) (tasks w) (ctx_log w).

Definition set__listen_addrs (l : list Address) (w : World) : World :=
  mkWorld (_server w) l (last_exception w) (connections w)
          (handlers w) (tasks w) (ctx_log w).

Definition set_last_exception (e : option exn) (w : World) : World :=
  mkWorld (_server w) (_listen_addrs w) e (connections w)
          (handlers w) (tasks w) (ctx_log w).

Definition set_connections (c : list (value * nat)) (w : World) : World :=
  mkWorld (_server w) (_listen_addrs w) (last_exception w) c
          (handlers w) (tasks w) (ctx_log w).

Definition set_handlers (h : list ProxyConnectionHandler) (w : World) : World :=
  mkWorld (_server w) (_listen_addrs w) (last_exception w) (connections w)
          h (tasks w) (ctx_log w).

Definition set_tasks (t : list (value * nat)) (w : World) : World :=
  mkWorld (_server w) (_listen_addrs w) (last_exception w) (connections w)
          (handlers w) t (ctx_log w).

Definition set_ctx_log (l : list (string * string)) (w : World) : World :=
  mkWorld (_server w) (_listen_addrs w) (last_exception w) (connections w)
          (handlers w) (tasks w) l.

(** The class attributes [_server = None] and [_listen_addrs = tuple()],
    and [last_exception = None] set by [ServerInstance.__init__], over a
    manager with no connection. *)
Definition initial_world : World :=
  mkWorld None [] None [] [] [] [].

(** ** Methods as state and exception passing functions *)

Definition M (A : Type) : Type := World -> (exn + A) * World.

Definition ret {A : Type} (a : A) : M A := fun w => (inr a, w).

Definition bind {A B : Type} (m : M A) (k : A -> M B) : M B :=
  fun w =>
    match m w with
    | (inl e, w') => (inl e, w')
    | (inr a, w') => k a w'
    end.

Definition raise {A : Type} (e : exn) : M A := fun w => (inl e, w).

Definition get {A : Type} (proj : World -> A) : M A := fun w => (inr (proj w), w).

Definition modify (f : World -> World) : M unit := fun w => (inr tt, f w).

(** [assert cond]. *)
Definition assert_ (cond : bool) : M unit :=
  if cond then ret tt else raise AssertionError.

(** [try: body  except Exception as e: handler(e)  else: orelse]. *)
Definition try_except_else {A B : Type}
    (body : M A) (handler : exn -> M B) (orelse : A -> M B) : M B :=
  fun w =>
    match body w with
    | (inl e, w') => handler e w'
    | (inr a, w') => orelse a w'
    end.

Declare Scope py_scope.
Delimit Scope py_scope with py.
Notation "x <- m ;; k" := (bind m (fun x => k))
  (at level 61, m at next level, right associativity) : py_scope.
Notation "m ;; k" := (bind m (fun _ => k))
  (at level 61, right associativity) : py_scope.
Local Open Scope py_scope.

(** [ctx.log.info(message)] and [ctx.log.error(message)]. *)
Definition log_info (message : string) : M unit :=
  modify (fun w => set_ctx_log (ctx_log w ++ [("info", message)])%list w).

Definition log_error (message : string) : M unit :=
  modify (fun w => set_ctx_log (ctx_log w ++ [("error", message)])%list w).

Definition is_none {A : Type} (o : option A) : bool :=
  match o with
  | None => true
  | Some _ => false
  end.

(** What the transport library answers to a call of [start_server]: a
    bound server, or an exception. *)
Inductive listen_outcome : Type :=
| ListenReturns (srv : Server)
| ListenRaises (e : exn).

(** The arguments handed to [asyncio.start_server] or
    [udp.start_server] by [listen]. *)
Inductive listen_request : Type :=
| StartServer (host : string) (port : Z)
| UdpStartServer (host : string) (port : Z) (transparent : attr_value bool).

(** [tuple(s.getsockname() for s in sockets)]: the names in order, or
    the exception of the first call that raises. *)
Fixpoint getsocknames (socks : list (exn + Address)) : exn + list Address :=
  match socks with
  | [] => inr []
  | inl e :: _ => inl e
  | inr a :: rest =>
      match getsocknames rest with
      | inl e => inl e
      | inr names => inr (a :: names)
      end
  end.

(** A computation that changes nothing and returns or raises. *)
Definition lift_result {A : Type} (r : exn + A) : M A := fun w => (r, w).

(** ** URLs *)

(** Byte strings are strings of 8-bit characters; unicode strings are
    lists of code points. *)
Definition bytes : Type := string.
Definition text : Type := list N.

(** The argument of [parse]: a URL as bytes or as unicode. *)
Inductive url_arg : Type :=
| UrlBytes (b : bytes)
| UrlText (t : text).

(** The six components of a [urllib.parse.ParseResult]. *)
Record ParseResult (S : Type) : Type := mkParseResult {
  scheme : S;
  netloc : S;
  path : S;
  params : S;
  query : S;
  fragment : S
}.

Arguments mkParseResult {S}.
Arguments scheme {S}.
Arguments netloc {S}.
Arguments path {S}.
Arguments params {S}.
Arguments query {S}.
Arguments fragment {S}.

(** What reading [parsed.port] gives: [None], an integer, or a
    [ValueError]. *)
Inductive port_result : Type :=
| PortNone
| PortInt (p : Z)
| PortInvalid.

(** ** Collaborators

    What the two modules consume from the Python runtime and from
    modules that are not modelled here.  For the servers: Python's
    [str(e)], [errno.EADDRINUSE], [human.format_address], the text a
    bound method object formats to in an f-string, the current
    [ctx.options], [ProxyMode.parse] and the constructor of
    [LiveConnectionHandler]. *)
Class Runtime : Type := {
  exn_str : exn -> string;
  EADDRINUSE : Z;
  format_address : Address -> string;
  bound_method_repr : string;
  options : Options;
  ProxyMode_parse : string -> exn + ProxyMode;
  LiveConnectionHandler_init : ProxyMode -> ProxyConnectionHandler
}.

(** For [parse]: [urllib.parse.urlparse] on unicode and on bytes, the
    [hostname] and [port] properties of its result,
    [urllib.parse.urlunparse], the [idna] codec ([None] when it raises
    [UnicodeError]), and [netlib.utils.is_valid_host] and
    [is_valid_port]. *)
Class Urllib : Type := {
  urlparse_text : text -> exn + ParseResult text;
  urlparse_bytes : bytes -> exn + ParseResult bytes;
  hostname_text : ParseResult text -> option text;
  hostname_bytes : ParseResult bytes -> option bytes;
  port_of : ParseResult bytes -> port_result;
  urlunparse : ParseResult bytes -> bytes;
  encode_idna : text -> option bytes;
  is_valid_host : bytes -> bool;
  is_valid_port : Z -> bool
}.

(** For the stream connections: [platform.original_addr], which is
    [None] on a platform without transparent mode support and otherwise
    maps the socket of a connection to its original destination or
    raises, and Python's [repr(e)]. *)
Class Platform : Type := {
  original_addr : option (value -> exn + Address);
  exn_repr : exn -> string
}.

(** What [writer.get_extra_info] knows of an accepted stream. *)
Record StreamWriter : Type := mkStreamWriter {
  peername : Address;
  sockname : Address;
  socket : value
}.

(** The argument of a hook: [isinstance(data, flow.Flow)] holds for a
    [FlowArg]. *)
Inductive hook_arg : Type :=
| FlowArg (flow : nat)
| DataArg (obj : nat).

(** The calls that [ProxyConnectionHandler.handle_hook] makes, in
    order: entering and leaving the scope of
    [self.timeout_watchdog.disarm()] (the exit is handed the exception
    that ended the body, if any), [handle_lifecycle(hook)] and
    [data.wait_for_resume()]. *)
Inductive hook_event : Type :=
| DisarmEnter
| DisarmExit (raised : option exn)
| HandleLifecycle (args : list hook_arg)
| WaitForResume (flow : nat).

Section ModeServers.

Context {rt : Runtime} {lib : Urllib} {pf : Platform}.

(** *** Class attributes and properties *)

(** [self.is_transparent]: a property returning [False] on
    [AsyncioServerInstance], the class attribute [True] on
    [TransparentInstance], and a plain method on [DnsInstance] and
    [UdpInstance]. *)
Fixpoint is_transparent (self : ServerInstance) : attr_value bool :=
  match cls self with
  | TransparentInstance => Val true
  | DnsInstance => BoundMethod (Val (String.eqb (data (mode self)) "transparent"))
  | UdpInstance =>
      BoundMethod
        match inner_server self with
        | Some inner => is_transparent inner
        | None => Val false
        end
  | _ => Val false
  end.

(** [self.log_desc]: class attributes, a property on [ReverseInstance],
    a plain method on [UdpInstance]. *)
Fixpoint log_desc (self : ServerInstance) : attr_value string :=
  match cls self with
  | RegularInstance => Val "HTTP(S) proxy"
  | UpstreamInstance => Val "HTTP(S) proxy (upstream mode)"
  | TransparentInstance => Val "Transparent proxy"
  | ReverseInstance => Val ("Reverse proxy to " ++ data (mode self))
  | Socks5Instance => Val "SOCKS v5 proxy"
  | DnsInstance => Val "DNS server"
  | UdpInstance =>
      BoundMethod
        match inner_server self with
        | Some inner =>
            match log_desc inner with
            | Val s => Val (s ++ " (UDP)")
            | BoundMethod _ => Val (bound_method_repr ++ " (UDP)")
            end
        | None => Val " (UDP)"
        end
  end.

(** [f"{self.log_desc}"]. *)
Definition format_log_desc (self : ServerInstance) : string :=
  match log_desc self with
  | Val s => s
  | BoundMethod _ => bound_method_repr
  end.

(** *** [AsyncioServerInstance] *)

(** [is_running]: [self._server is not None]. *)
Definition is_running (w : World) : bool := negb (is_none (_server w)).

(** [listen_addrs]: [self._listen_addrs]. *)
Definition listen_addrs (w : World) : list Address := _listen_addrs w.

(** [TcpServerInstance.listen] and [UdpServerInstance.listen]: the call
    made to the transport library. *)
Definition listen_call (self : ServerInstance) (host : string) (port : Z)
  : listen_request :=
  match cls self with
  | DnsInstance | UdpInstance => UdpStartServer host port (is_transparent self)
  | _ => StartServer host port
  end.

(** [await self.listen(host, port)]: the transport library,
    [listening], answers the call. *)
Definition listen (self : ServerInstance) (host : string) (port : Z)
    (listening : listen_request -> listen_outcome) : M Server :=
  match listening (listen_call self host port) with
  | ListenReturns srv => ret srv
  | ListenRaises e => raise e
  end.

Definition format_addrs (addrs : list Address) : string :=
  join " and " (map format_address addrs).

(** The two f-strings of [start]: the message of the error raised when
    [listen] fails with the [OSError] [e], and the line appended to it
    when the port is in use and was not chosen by the operator. *)
Definition listen_failure (self : ServerInstance) (host : string) (port : Z)
    (e : exn) : string :=
  format_log_desc self ++ " failed to listen on "
    ++ (if String.eqb host "" then "*" else host)
    ++ ":" ++ str_int port ++ " with " ++ exn_str e.

Definition port_hint (self : ServerInstance) (port : Z) : string :=
  String "010" "Try specifying a different port by using `--mode "
    ++ full_spec (mode self) ++ "@" ++ str_int (port + 1) ++ "`.".

(** [AsyncioServerInstance.start]. *)
Definition start (self : ServerInstance)
    (listening : listen_request -> listen_outcome) : M unit :=
  running <- get is_running ;;
  assert_ (negb running) ;;
  let host := listen_host (mode self) (opt_listen_host options) in
  let port := listen_port (mode self) (opt_listen_port options) in
  try_except_else
    (srv <- listen self host port listening ;;
     modify (set__server (Some srv)) ;;
     names <- lift_result (getsocknames (sockets srv)) ;;
     modify (set__listen_addrs names))
    (fun e =>
       match e with
       | OSError errno _ filename _ =>
           modify (set_last_exception (Some e)) ;;
           let message := listen_failure self host port e in
           if Z.eqb errno EADDRINUSE && is_none (custom_listen_port (mode self))
           then
             assert_ (is_none (custom_listen_host (mode self))) ;;
             raise (OSError errno (message ++ port_hint self port)
                            filename (Some e))
           else
             raise (OSError errno message filename (Some e))
       | _ =>
           modify (set_last_exception (Some e)) ;;
           raise e
       end)
    (fun _ => modify (set_last_exception None)) ;;
  addrs <- get _listen_addrs ;;
  log_info (format_log_desc self ++ " listening at " ++ format_addrs addrs ++ ".").

(** [server.close()] followed by [await server.wait_closed()]: the
    environment, which sees the world as it is at the call, answers with
    the exception raised, if any.  What other tasks do while [stop] is
    suspended is outside this model. *)
Definition close_and_wait (srv : Server) (closing : World -> option exn)
  : M unit :=
  fun w =>
    match closing w with
    | Some e => (inl e, w)
    | None => (inr tt, w)
    end.

(** [AsyncioServerInstance.stop]. *)
Definition stop (self : ServerInstance) (closing : World -> option exn)
  : M unit :=
  server <- get _server ;;
  match server with
  | None => raise AssertionError
  | Some srv =>
      addrs <- get _listen_addrs ;;
      modify (set__server None) ;;
      modify (set__listen_addrs []) ;;
      try_except_else
        (close_and_wait srv closing)
        (fun e => modify (set_last_exception (Some e)) ;; raise e)
        (fun _ => modify (set_last_exception None)) ;;
      log_info ("Stopped " ++ format_log_desc self ++ " at "
                  ++ format_addrs addrs ++ ".")
  end.

(** The answer that [start] gets from the transport library. *)
Definition listen_answer (self : ServerInstance)
    (listening : listen_request -> listen_outcome) : listen_outcome :=
  listening (listen_call self
               (listen_host (mode self) (opt_listen_host options))
               (listen_port (mode self) (opt_listen_port options))).

(** The world after the attribute writes of a [start] that bound
    [srv] and read the names [names] of its sockets, before the log
    entry. *)
Definition started (srv : Server) (names : list Address) (w : World) : World :=
  set_last_exception None
    (set__listen_addrs names (set__server (Some srv) w)).

(** The world after the first four statements of [stop]. *)
Definition cleared (w : World) : World :=
  set__listen_addrs [] (set__server None w).

(** The invariant of the lifecycle: [listen_addrs] is empty when the
    instance is not running. *)
Definition lifecycle_invariant (w : World) : Prop :=
  is_running w = false -> listen_addrs w = [].

(** A caller's sequence of lifecycle calls; an exception raised by one
    call does not prevent the next. *)
Inductive lifecycle_call : Type :=
| CallStart (listening : listen_request -> listen_outcome)
| CallStop (closing : World -> option exn).

Definition run_call (self : ServerInstance) (c : lifecycle_call) (w : World)
  : World :=
  match c with
  | CallStart listening => snd (start self listening w)
  | CallStop closing => snd (stop self closing w)
  end.

Definition run_calls (self : ServerInstance) (cs : list lifecycle_call)
    (w : World) : World :=
  fold_left (fun w c => run_call self c w) cs w.


(** *** The mode registry and [ServerInstance.make] *)

(** Modelled from the spec: the [type] of the mode class that each
    concrete server class is generic in.  The mode classes belong to
    [mode_specs], which is not among the sources; the tags are the kinds
    of the mode string grammar. *)
Definition mode_class_type (c : server_class) : string :=
  match c with
  | RegularInstance => "regular"
  | UpstreamInstance => "upstream"
  | TransparentInstance => "transparent"
  | ReverseInstance => "reverse"
  | Socks5Instance => "socks5"
  | DnsInstance => "dns"
  | UdpInstance => "udp"
  end.

(** The dict [ServerInstance.__modes] once every subclass is defined:
    [__init_subclass__] enters each concrete class, in the order of the
    class definitions, under the [type] of its mode class. *)
Definition modes_registry : list (string * server_class) :=
  map (fun c => (mode_class_type c, c))
      [ RegularInstance; UpstreamInstance; TransparentInstance;
        ReverseInstance; Socks5Instance; DnsInstance; UdpInstance ].

Fixpoint registry_get (d : list (string * server_class)) (k : string)
  : option server_class :=
  match d with
  | [] => None
  | (k', c) :: d' => if String.eqb k' k then Some c else registry_get d' k
  end.

(** The body of [UdpInstance.__init__(self, mode, manager)] once
    [mode.inner_mode] is read: [super().__init__(mode.inner_mode,
    manager)], then [ServerInstance.make(mode.inner_mode)], a call with
    one positional argument; [make_inner] is [ServerInstance.make]
    applied to the inner mode and awaits the arguments that follow it. *)
Definition UdpInstance_init_inner
    (make_inner : list nat -> exn + ServerInstance)
    (inner : ProxyMode) (mgr : nat) : exn + ServerInstance :=
  match make_inner [] with
  | inl e => inl e
  | inr srv => inr (mkServerInstance UdpInstance inner mgr (Some srv))
  end.

(** [ServerInstance.make(mode, manager)] for a [mode] that is a
    [ProxyMode]; [args] are the positional arguments that follow [mode].
    The signature takes exactly one, [manager]. *)
Fixpoint make (m : ProxyMode) (args : list nat) {struct m}
  : exn + ServerInstance :=
  match args with
  | [mgr] =>
      match registry_get modes_registry (mode_type m) with
      | None => inl (KeyError (mode_type m))
      | Some UdpInstance =>
          match inner_mode m with
          | None => inl (AttributeError "inner_mode")
          | Some inner => UdpInstance_init_inner (make inner) inner mgr
          end
      | Some c => inr (mkServerInstance c m mgr None)
      end
  | _ => inl (TypeError "make")
  end.

(** [ServerInstance.make(mode, manager)] for a [mode] given as [str]. *)
Definition make_str (s : string) (args : list nat) : exn + ServerInstance :=
  match args with
  | [_] =>
      match ProxyMode_parse s with
      | inl e => inl e
      | inr m => make m args
      end
  | _ => inl (TypeError "make")
  end.

(** [UdpInstance(mode, manager)]. *)
Definition UdpInstance_init (m : ProxyMode) (mgr : nat)
  : exn + ServerInstance :=
  match inner_mode m with
  | None => inl (AttributeError "inner_mode")
  | Some inner => UdpInstance_init_inner (make inner) inner mgr
  end.

(** *** Top layers *)

Definition set_layer (l : Layer) (h : ProxyConnectionHandler)
  : ProxyConnectionHandler :=
  mkHandler (client_transport_protocol h) (connection_timeout h)
            (server_address h) (server_transport_protocol h) l
            (reader_queue h).

Definition set_server_address (a : option Address) (h : ProxyConnectionHandler)
  : ProxyConnectionHandler :=
  mkHandler (client_transport_protocol h) (connection_timeout h)
            a (server_transport_protocol h) (layer h) (reader_queue h).

Definition set_server_transport_protocol (p : string)
    (h : ProxyConnectionHandler) : ProxyConnectionHandler :=
  mkHandler (client_transport_protocol h) (connection_timeout h)
            (server_address h) p (layer h) (reader_queue h).

Definition set_client_transport_protocol (p : string)
    (h : ProxyConnectionHandler) : ProxyConnectionHandler :=
  mkHandler p (connection_timeout h)
            (server_address h) (server_transport_protocol h) (layer h)
            (reader_queue h).

Definition set_connection_timeout (t : option Z) (h : ProxyConnectionHandler)
  : ProxyConnectionHandler :=
  mkHandler (client_transport_protocol h) t
            (server_address h) (server_transport_protocol h) (layer h)
            (reader_queue h).

Definition set_reader_queue (q : list (value * Address))
    (h : ProxyConnectionHandler) : ProxyConnectionHandler :=
  mkHandler (client_transport_protocol h) (connection_timeout h)
            (server_address h) (server_transport_protocol h) (layer h) q.

(** [handler.layer = self.make_top_layer(handler.layer.context)]: the
    context is the handler's own, so that the write of
    [DnsInstance.make_top_layer] to [context.server.address] lands in
    the handler. *)
Fixpoint make_top_layer (self : ServerInstance) (h : ProxyConnectionHandler)
  : ProxyConnectionHandler :=
  match cls self with
  | RegularInstance => set_layer HttpProxy h
  | UpstreamInstance => set_layer HttpUpstreamProxy h
  | TransparentInstance => set_layer TransparentProxy h
  | ReverseInstance => set_layer ReverseProxy h
  | Socks5Instance => set_layer Socks5Proxy h
  | DnsInstance =>
      let host :=
        if String.eqb (data (mode self)) "" then "resolve-local"
        else data (mode self) in
      set_layer DNSLayer
        (set_server_address (Some (VTuple [VStr host; VInt 53])) h)
  | UdpInstance =>
      match inner_server self with
      | Some inner => make_top_layer inner h
      | None => h
      end
  end.

(** *** Datagram demultiplexing *)

Definition byte_to_Z (b : Byte.byte) : Z := Z.of_N (Byte.to_N b).

(** Two bytes read as a big-endian unsigned 16-bit integer, the format
    ["!H"]. *)
Definition be16 (b0 b1 : Byte.byte) : Z :=
  Z.lor (Z.shiftl (byte_to_Z b0) 8) (byte_to_Z b1).

(** [struct.unpack_from("!H", data, 0)]: the tuple of the unpacked
    fields, here a one-element tuple. *)
Definition unpack_from_H (buf : value) : M value :=
  match buf with
  | VBytes (b0 :: b1 :: _) => ret (VTuple [VInt (be16 b0 b1)])
  | VBytes _ => raise StructError
  | _ => raise (TypeError "unpack_from")
  end.

(** [DnsInstance.make_connection_id(self, data, remote_addr,
    local_addr)], applied to the positional arguments [args]. *)
Definition DnsInstance_make_connection_id (args : list value) : M value :=
  match args with
  | [buf; remote_addr; local_addr] =>
      try_except_else
        (unpack_from_H buf)
        (fun e =>
           match e with
           | StructError =>
               log_info ("Invalid DNS datagram received from "
                           ++ format_address remote_addr ++ ".") ;;
               ret VNone
           | _ => raise e
           end)
        (fun dns_id => ret (VTuple [VStr "udp"; dns_id; remote_addr; local_addr]))
  | _ => raise (TypeError "make_connection_id")
  end.

(** [UdpInstance.make_connection_id(self, data, remote_addr,
    local_addr)]. *)
Definition UdpInstance_make_connection_id (args : list value) : M value :=
  match args with
  | [_; remote_addr; local_addr] =>
      ret (VTuple [VStr "udp"; remote_addr; local_addr])
  | _ => raise (TypeError "make_connection_id")
  end.

(** [self.make_connection_id] applied to the positional arguments
    [args], dispatched on the class of [self]. *)
Definition make_connection_id (self : ServerInstance) (args : list value)
  : M value :=
  match cls self with
  | DnsInstance => DnsInstance_make_connection_id args
  | UdpInstance => UdpInstance_make_connection_id args
  | _ => raise (AttributeError "make_connection_id")
  end.

(** [key in d] and [d[key]] on the connections dict. *)
Fixpoint dict_get (d : list (value * nat)) (k : value) : option nat :=
  match d with
  | [] => None
  | (k', v) :: d' => if value_eqb k' k then Some v else dict_get d' k
  end.

(** [d[key] = v]: replaces the value of an existing key, appends a new
    key. *)
Fixpoint dict_set (d : list (value * nat)) (k : value) (v : nat)
  : list (value * nat) :=
  match d with
  | [] => [(k, v)]
  | (k', v') :: d' =>
      if value_eqb k' k then (k', v) :: d' else (k', v') :: dict_set d' k v
  end.

(** Modelled from the spec: [udp.DatagramReader.feed_data], which is
    not among the sources, called as [reader.feed_data(data,
    remote_addr)] on the reader of the handler at reference [href]: the
    datagram and its peer are fed into the reader, behind those that
    arrived before. *)
Fixpoint feed_at (hs : list ProxyConnectionHandler) (href : nat)
    (item : value * Address) : list ProxyConnectionHandler :=
  match hs, href with
  | [], _ => []
  | h :: hs', O => set_reader_queue (reader_queue h ++ [item])%list h :: hs'
  | h :: hs', S n => h :: feed_at hs' n item
  end.

Definition feed_data (href : nat) (buf : value) (remote_addr : Address)
  : M unit :=
  modify (fun w => set_handlers (feed_at (handlers w) href (buf, remote_addr)) w).

(** The handler built on a mapping miss: a fresh
    [DatagramReader], the handler's constructor, then the attribute
    writes and the top layer. *)
Definition new_udp_handler (self : ServerInstance) (local_addr : Address)
  : ProxyConnectionHandler :=
  let handler := set_reader_queue [] (LiveConnectionHandler_init (mode self)) in
  let handler := set_client_transport_protocol "udp" handler in
  let handler := set_connection_timeout (Some 20) handler in
  let handler :=
    if truthy (is_transparent self)
    then set_server_address (Some local_addr) handler
    else handler in
  let handler := set_server_transport_protocol "udp" handler in
  make_top_layer self handler.

(** [handle_udp_datagram] from its second statement on, for the
    [connection_id] that the first statement computed. *)
Definition dispatch_datagram (self : ServerInstance) (connection_id : value)
    (transport buf remote_addr local_addr : value) : M unit :=
  if is_VNone connection_id then ret tt
  else
    conns <- get connections ;;
    match dict_get conns connection_id with
    | None =>
        hs <- get handlers ;;
        let href := List.length hs in
        modify (set_handlers (hs ++ [new_udp_handler self local_addr])%list) ;;
        modify (fun w => set_connections
                           (dict_set (connections w) connection_id href) w) ;;
        modify (fun w => set_tasks (tasks w ++ [(connection_id, href)])%list w) ;;
        feed_data href buf remote_addr
    | Some href =>
        feed_data href buf remote_addr
    end.

(** [UdpServerInstance.handle_udp_datagram(self, transport, data,
    remote_addr, local_addr)]: the classifier is called with the four
    arguments [transport, data, remote_addr, local_addr]. *)
Definition handle_udp_datagram (self : ServerInstance)
    (transport buf remote_addr local_addr : value) : M unit :=
  connection_id <-
    make_connection_id self [transport; buf; remote_addr; local_addr] ;;
  dispatch_datagram self connection_id transport buf remote_addr local_addr.

(** *** [netlib.http.url] *)

(** [t.encode("ascii")]. *)
Fixpoint encode_ascii (t : text) : exn + bytes :=
  match t with
  | [] => inr ""
  | c :: t' =>
      if (c <? 128)%N then
        match encode_ascii t' with
        | inr s => inr (String (ascii_of_N c) s)
        | inl e => inl e
        end
      else inl UnicodeError
  end.

(** [encode_parse_result(result, "ascii")]: every component encoded. *)
Definition encode_parse_result (result : ParseResult text)
  : exn + ParseResult bytes :=
  match encode_ascii (scheme result), encode_ascii (netloc result),
        encode_ascii (path result), encode_ascii (params result),
        encode_ascii (query result), encode_ascii (fragment result) with
  | inr a, inr b, inr c, inr d, inr e, inr f =>
      inr (mkParseResult a b c d e f)
  | _, _, _, _, _, _ => inl UnicodeError
  end.

(** Every component of [encoded] is the ASCII encoding of the same
    component of [found]. *)
Definition encodes_to (found : ParseResult text) (encoded : ParseResult bytes)
  : Prop :=
  encode_ascii (scheme found) = inr (scheme encoded) /\
  encode_ascii (netloc found) = inr (netloc encoded) /\
  encode_ascii (path found) = inr (path encoded) /\
  encode_ascii (params found) = inr (params encoded) /\
  encode_ascii (query found) = inr (query encoded) /\
  encode_ascii (fragment found) = inr (fragment encoded).

(** [not x] for an optional string: [None] and the empty string are
    false. *)
Definition falsy_bytes (h : option bytes) : bool :=
  match h with
  | None => true
  | Some s => String.eqb s ""
  end.

Definition falsy_text (h : option text) : bool :=
  match h with
  | None | Some [] => true
  | Some _ => false
  end.

(** The first half of [parse]: [urlparse], the test of the hostname and
    the [isinstance] branches, which leave [host] and a byte valued
    [parsed]. *)
Definition parse_host (url : url_arg) : exn + (bytes * ParseResult bytes) :=
  match url with
  | UrlBytes b =>
      match urlparse_bytes b with
      | inl e => inl e
      | inr parsed =>
          if falsy_bytes (hostname_bytes parsed)
          then inl (ValueError "No hostname given")
          else
            match hostname_bytes parsed with
            | Some host => inr (host, parsed)
            | None => inl (ValueError "No hostname given")
            end
      end
  | UrlText t =>
      match urlparse_text t with
      | inl e => inl e
      | inr parsed =>
          if falsy_text (hostname_text parsed)
          then inl (ValueError "No hostname given")
          else
            match hostname_text parsed with
            | Some hostname =>
                match encode_idna hostname with
                | None => inl UnicodeError
                | Some host =>
                    match encode_parse_result parsed with
                    | inl e => inl e
                    | inr parsed' => inr (host, parsed')
                    end
                end
            | None => inl (ValueError "No hostname given")
            end
      end
  end.

(** [port = 443 if parsed.scheme == b"https" else 80]. *)
Definition default_port_of (parsed : ParseResult bytes) : Z :=
  if String.eqb (scheme parsed) "https" then 443 else 80.

(** The path of the result: [urlunparse] of the components after the
    netloc, with a slash put in front when there is none. *)
Definition full_path_of (parsed : ParseResult bytes) : bytes :=
  let full_path :=
    urlunparse (mkParseResult "" "" (path parsed) (params parsed)
                              (query parsed) (fragment parsed)) in
  if startswith "/" full_path then full_path else "/" ++ full_path.

(** The second half of [parse], from the read of [parsed.port] on. *)
Definition parse_checked (host : bytes) (parsed : ParseResult bytes)
  : exn + (bytes * bytes * Z * bytes) :=
  match port_of parsed with
  | PortInvalid => inl (ValueError "Port out of range 0-65535")
  | found =>
      let port :=
        match found with
        | PortInt p => if Z.eqb p 0 then default_port_of parsed else p
        | _ => default_port_of parsed
        end in
      let full_path := full_path_of parsed in
      if negb (is_valid_host host) then inl (ValueError "Invalid Host")
      else if negb (is_valid_port port) then inl (ValueError "Invalid Port")
      else inr (scheme parsed, host, port, full_path)
  end.

(** [parse(url)]: the tuple [(scheme, host, port, path)]. *)
Definition parse (url : url_arg) : exn + (bytes * bytes * Z * bytes) :=
  match parse_host url with
  | inl e => inl e
  | inr (host, parsed) => parse_checked host parsed
  end.

(** [result.decode("ascii")] on bytes. *)
Fixpoint decode_ascii (b : bytes) : exn + text :=
  match b with
  | EmptyString => inr []
  | String c b' =>
      if (N_of_ascii c <? 128)%N then
        match decode_ascii b' with
        | inr t => inr (N_of_ascii c :: t)
        | inl e => inl e
        end
      else inl UnicodeError
  end.

(** [decode_parse_result(result, "ascii")]: every component decoded. *)
Definition decode_parse_result (result : ParseResult bytes)
  : exn + ParseResult text :=
  match decode_ascii (scheme result), decode_ascii (netloc result),
        decode_ascii (path result), decode_ascii (params result),
        decode_ascii (query result), decode_ascii (fragment result) with
  | inr a, inr b, inr c, inr d, inr e, inr f =>
      inr (mkParseResult a b c d e f)
  | _, _, _, _, _, _ => inl UnicodeError
  end.

(** *** Stream connections *)

(** [TcpServerInstance.handle_tcp_connection] up to the [with]
    statement: the connection id, the handler, the lookup of the
    original destination in transparent mode and the top layer. *)
Definition accept_tcp_connection (self : ServerInstance) (writer : StreamWriter)
  : M (value * ProxyConnectionHandler) :=
  let connection_id := VTuple [VStr "tcp"; peername writer; sockname writer] in
  let handler := LiveConnectionHandler_init (mode self) in
  handler <-
    (if truthy (is_transparent self) then
       match original_addr with
       | None => raise AssertionError
       | Some lookup =>
           try_except_else
             (fun w => (lookup (socket writer), w))
             (fun e =>
                log_error ("Transparent mode failure: " ++ exn_repr e) ;;
                ret handler)
             (fun a => ret (set_server_address (Some a) handler))
       end
     else ret handler) ;;
  ret (connection_id, make_top_layer self handler).

(** [TcpServerInstance.handle_tcp_connection]; [serve] is the [with]
    statement, in which the manager registers the connection and the
    handler handles the client. *)
Definition handle_tcp_connection (self : ServerInstance) (writer : StreamWriter)
    (serve : value -> ProxyConnectionHandler -> M unit) : M unit :=
  match cls self with
  | DnsInstance | UdpInstance => raise (AttributeError "handle_tcp_connection")
  | _ =>
      accepted <- accept_tcp_connection self writer ;;
      serve (fst accepted) (snd accepted)
  end.

(** *** Hooks *)

(** The body of the [with] statement of
    [ProxyConnectionHandler.handle_hook]: the calls it makes and the
    exception that ends it.  [delivered] and [resumed] are what
    [handle_lifecycle] and [wait_for_resume] raise, if anything. *)
Definition handle_hook_body (args : list hook_arg)
    (delivered resumed : option exn) : list hook_event * option exn :=
  match args with
  | [arg] =>
      match delivered with
      | Some e => ([HandleLifecycle args], Some e)
      | None =>
          match arg with
          | FlowArg flow => ([HandleLifecycle args; WaitForResume flow], resumed)
          | DataArg _ => ([HandleLifecycle args], None)
          end
      end
  | _ => ([], Some (ValueError "unpack"))
  end.

(** [ProxyConnectionHandler.handle_hook], as the calls it makes. *)
Definition handle_hook (args : list hook_arg) (delivered resumed : option exn)
  : list hook_event :=
  (DisarmEnter :: fst (handle_hook_body args delivered resumed)
     ++ [DisarmExit (snd (handle_hook_body args delivered resumed))])%list.

(** *** Sample data

    A Python runtime on Linux, a [regular] and a [dns] mode with the
    default listen address, and their instances. *)

(** [str(e)] for an [OSError] built from an errno and its message. *)
Definition py_exn_str (e : exn) : string :=
  match e with
  | OSError errno strerror _ _ =>
      "[Errno " ++ str_int errno ++ "] " ++ strerror
  | _ => ""
  end.

Definition py_format_address (a : Address) : string :=
  match a with
  | VTuple [VStr host; VInt port] => host ++ ":" ++ str_int port
  | _ => "?"
  end.

Definition default_host (default : option string) : string :=
  match default with
  | Some h => h
  | None => ""
  end.

Definition default_port (p : Z) (default : option Z) : Z :=
  match default with
  | Some q => q
  | None => p
  end.

Definition regular_mode : ProxyMode :=
  mkProxyMode "regular" "" "regular" None None
              default_host (default_port 8080) None.

Definition dns_mode : ProxyMode :=
  mkProxyMode "dns" "resolve-local" "dns:resolve-local" None None
              default_host (default_port 53) None.

Definition udp_mode : ProxyMode :=
  mkProxyMode "udp" "regular" "udp:regular" None None
              default_host (default_port 8080) (Some regular_mode).

Definition no_options : Options := mkOptions None None.

Definition regular_instance : ServerInstance :=
  mkServerInstance RegularInstance regular_mode 0 None.

Definition dns_instance : ServerInstance :=
  mkServerInstance DnsInstance dns_mode 0 None.

Definition loopback (port : Z) : Address := VTuple [VStr "127.0.0.1"; VInt port].

Definition bound_at (port : Z) : Server := mkServer 1 [inr (loopback port)].

(** A server whose socket cannot tell its name, and a server that was
    left without a socket. *)
Definition bad_descriptor : exn := OSError 9 "Bad file descriptor" None None.

Definition unnamed_server : Server := mkServer 2 [inl bad_descriptor].

Definition socketless_server : Server := mkServer 3 [].

Definition permission_denied : exn := OSError 13 "Permission denied" None None.

Definition address_in_use : exn := OSError 98 "Address already in use" None None.

(** A Linux runtime: [EADDRINUSE] is 98. *)
Definition linux : Runtime :=
  {| exn_str := py_exn_str;
     EADDRINUSE := 98;
     format_address := py_format_address;
     bound_method_repr := "<bound method>";
     options := no_options;
     ProxyMode_parse := fun s => inl (ValueError s);
     LiveConnectionHandler_init :=
       fun _ => mkHandler "tcp" None None "tcp" InitialLayer [] |}.

(** Three URLs as [urlparse] dissects them. *)
Definition sample_urls : list (bytes * ParseResult bytes) :=
  [ ("https://example.com", mkParseResult "https" "example.com" "" "" "" "");
    ("http://example.com:99999/x",
     mkParseResult "http" "example.com:99999" "/x" "" "" "");
    ("http:///x", mkParseResult "http" "" "/x" "" "" "") ].

Fixpoint sample_urlparse (table : list (bytes * ParseResult bytes)) (b : bytes)
  : exn + ParseResult bytes :=
  match table with
  | [] => inl (ValueError "not in the table")
  | (u, r) :: table' =>
      if String.eqb u b then inr r else sample_urlparse table' b
  end.

Definition sample_hostname (r : ParseResult bytes) : option bytes :=
  if String.eqb (netloc r) "" then None else Some "example.com".

Definition sample_port (r : ParseResult bytes) : port_result :=
  if String.eqb (netloc r) "example.com:99999" then PortInt 99999
  else PortNone.

Definition in_port_range (p : Z) : bool := Z.leb 0 p && Z.leb p 65535.

Definition sample_urllib : Urllib :=
  {| urlparse_text := fun _ => inl (ValueError "not in the table");
     urlparse_bytes := sample_urlparse sample_urls;
     hostname_text := fun _ => None;
     hostname_bytes := sample_hostname;
     port_of := sample_port;
     urlunparse := fun r => path r;
     encode_idna := fun _ => None;
     is_valid_host := fun _ => true;
     is_valid_port := in_port_range |}.

(** The code points of an ASCII string. *)
Definition text_of_string (s : string) : text :=
  map N_of_ascii (list_ascii_of_string s).

(** A library that also knows one URL given as unicode; the IDNA
    encoding of an ASCII hostname is the hostname. *)
Definition unicode_urllib : Urllib :=
  {| urlparse_text :=
       fun t =>
         if list_eq_dec N.eq_dec t (text_of_string "https://example.com")
         then inr (mkParseResult (text_of_string "https")
                                 (text_of_string "example.com") [] [] [] [])
         else inl (ValueError "not in the table");
     urlparse_bytes := sample_urlparse sample_urls;
     hostname_text := fun r => match netloc r with [] => None | h => Some h end;
     hostname_bytes := sample_hostname;
     port_of := sample_port;
     urlunparse := fun r => path r;
     encode_idna :=
       fun t => match encode_ascii t with inr b => Some b | inl _ => None end;
     is_valid_host := fun _ => true;
     is_valid_port := in_port_range |}.

(** A DNS query of twelve bytes with the transaction id [0x1234]. *)
Definition dns_query : list Byte.byte :=
  [Byte.x12; Byte.x34; Byte.x01; Byte.x00; Byte.x00; Byte.x01;
   Byte.x00; Byte.x00; Byte.x00; Byte.x00; Byte.x00; Byte.x00].

(** A caller that starts while the port is taken, starts again, stops
    and starts once more. *)
Definition sample_calls : list lifecycle_call :=
  [ CallStart (fun _ => ListenRaises address_in_use);
    CallStart (fun _ => ListenReturns (bound_at 8080));
    CallStop (fun _ => None);
    CallStart (fun _ => ListenReturns (bound_at 8080)) ].

Definition py_exn_repr (e : exn) : string :=
  match e with
  | OtherException name => name ++ "()"
  | _ => "Exception()"
  end.

(** A platform whose lookup of the original destination fails, and one
    on which every connection was headed for port 443 of 10.0.0.1. *)
Definition failing_platform : Platform :=
  {| original_addr := Some (fun _ => inl (OtherException "RuntimeError"));
     exn_repr := py_exn_repr |}.

Definition redirecting_platform : Platform :=
  {| original_addr := Some (fun _ => inr (VTuple [VStr "10.0.0.1"; VInt 443]));
     exn_repr := py_exn_repr |}.

Definition transparent_mode : ProxyMode :=
  mkProxyMode "transparent" "" "transparent" None None
              default_host (default_port 8080) None.

Definition transparent_instance : ServerInstance :=
  mkServerInstance TransparentInstance transparent_mode 0 None.

Definition accepted_stream : StreamWriter :=
  mkStreamWriter (loopback 50000) (loopback 8080) (VRef 9).

(** The connection ids of two DNS queries from the same client. *)
Definition query_id (tid : Z) : value :=
  VTuple [VStr "udp"; VTuple [VInt tid]; loopback 50000; loopback 53].

(** * Properties *)

(** ** Strings and values *)

Lemma prefix_app (p s : string) : String.prefix p (p ++ s) = true.
Proof.
  induction p as [|c p IH]; simpl.
  - destruct s; reflexivity.
  - destruct (ascii_dec c c) as [_|ne]; [exact IH | now elim ne].
Qed.

Lemma str_contains_prefix (sub s : string) :
  String.prefix sub s = true -> str_contains sub s = true.
Proof. intros H. destruct s; cbn [str_contains]; rewrite H; reflexivity. Qed.

Lemma str_contains_app (sub a b : string) :
  str_contains sub (a ++ sub ++ b) = true.
Proof.
  induction a as [|c a IH]; simpl.
  - apply str_contains_prefix, prefix_app.
  - rewrite IH. apply orb_true_r.
Qed.

Lemma bytes_eqb_eq (a b : list Byte.byte) : bytes_eqb a b = true <-> a = b.
Proof.
  unfold bytes_eqb. destruct (list_eq_dec Byte.byte_eq_dec a b); split;
    congruence.
Qed.

(** [value_eqb] decides equality of values; the tuple case goes through
    the items, so the induction is on the size of the first value. *)
Lemma value_eqb_eq_sized (n : nat) :
  forall a b, (value_size a <= n)%nat -> (value_eqb a b = true <-> a = b).
Proof.
  induction n as [|n IH]; intros a b Hn.
  - destruct a; simpl in Hn; lia.
  - destruct a, b; simpl; try (split; [discriminate | congruence]).
    + split; reflexivity.
    + rewrite Z.eqb_eq. split; congruence.
    + rewrite String.eqb_eq. split; congruence.
    + rewrite bytes_eqb_eq. split; congruence.
    + simpl in Hn. apply le_S_n in Hn.
      revert items0.
      induction items as [|x xs IHxs]; intros [|y ys];
        try (split; [discriminate | congruence]).
      * split; reflexivity.
      * simpl in Hn.
        rewrite andb_true_iff, (IH x y) by lia.
        assert (Hxs : (fold_right (fun x n => (value_size x + n)%nat) O xs <= n)%nat)
          by lia.
        specialize (IHxs Hxs ys).
        split.
        -- intros [-> H]. apply IHxs in H. congruence.
        -- intros H. injection H as -> ->. split; [reflexivity|].
           apply IHxs. reflexivity.
    + rewrite Nat.eqb_eq. split; congruence.
Qed.

Lemma value_eqb_eq (a b : value) : value_eqb a b = true <-> a = b.
Proof. apply (value_eqb_eq_sized (value_size a)). apply le_n. Qed.

Lemma value_eqb_refl (a : value) : value_eqb a a = true.
Proof. now apply value_eqb_eq. Qed.

Lemma value_eqb_neq (a b : value) : a <> b -> value_eqb a b = false.
Proof.
  intros H. destruct (value_eqb a b) eqn:E; [|reflexivity].
  apply value_eqb_eq in E. contradiction.
Qed.

(** ** The lifecycle of [AsyncioServerInstance] *)

Ltac run_method :=
  unfold bind, get, modify, assert_, try_except_else, raise, ret, listen,
    lift_result, close_and_wait, log_info, is_running in *;
  cbn [fst snd negb is_none _server _listen_addrs last_exception
       set__server set__listen_addrs set_last_exception set_ctx_log] in *.

Lemma is_running_true (w : World) :
  is_running w = true <-> exists srv, _server w = Some srv.
Proof.
  unfold is_running. destruct (_server w) as [srv|]; simpl; split.
  - intros _. now exists srv.
  - reflexivity.
  - discriminate.
  - intros [srv H]. discriminate.
Qed.

Lemma is_running_false (w : World) :
  is_running w = false <-> _server w = None.
Proof.
  unfold is_running. destruct (_server w); simpl; split; congruence.
Qed.

(** [start] consults the transport library once, for the call that
    [listen] makes. *)
Lemma start_answer self listening w :
  start self listening w = start self (fun _ => listen_answer self listening) w.
Proof. reflexivity. Qed.

Lemma start_when_running self listening w :
  is_running w = true -> start self listening w = (inl AssertionError, w).
Proof.
  intros H. unfold start. run_method. rewrite H. reflexivity.
Qed.

Lemma start_returns self listening srv names w :
  is_running w = false ->
  listen_answer self listening = ListenReturns srv ->
  getsocknames (sockets srv) = inr names ->
  start self listening w
  = (inr tt,
     set_ctx_log
       (ctx_log w ++ [("info", (format_log_desc self ++ " listening at "
                                  ++ format_addrs names ++ ".")%string)])%list
       (started srv names w)).
Proof.
  intros H A N. unfold start. run_method. rewrite H. simpl.
  unfold listen_answer in A. rewrite A. simpl. rewrite N. reflexivity.
Qed.

Lemma start_raises self listening e w :
  is_running w = false ->
  listen_answer self listening = ListenRaises e ->
  exists e',
    start self listening w = (inl e', set_last_exception (Some e) w).
Proof.
  intros H A. unfold start. run_method. rewrite H. simpl.
  unfold listen_answer in A. rewrite A.
  destruct e; simpl; try (eexists; reflexivity).
  destruct (Z.eqb errno EADDRINUSE && is_none (custom_listen_port (mode self)));
    [destruct (is_none (custom_listen_host (mode self)))|];
    simpl; eexists; reflexivity.
Qed.

(** When [listen] returns and a [getsockname()] raises, [_server] is
    already assigned: [start] raises and leaves the server in place. *)
Lemma start_unnamed self listening srv e w :
  is_running w = false ->
  listen_answer self listening = ListenReturns srv ->
  getsocknames (sockets srv) = inl e ->
  exists e',
    start self listening w
    = (inl e', set_last_exception (Some e) (set__server (Some srv) w)).
Proof.
  intros H A N. unfold start. run_method. rewrite H. simpl.
  unfold listen_answer in A. rewrite A. simpl. rewrite N.
  destruct e; simpl; try (eexists; reflexivity).
  destruct (Z.eqb errno EADDRINUSE && is_none (custom_listen_port (mode self)));
    [destruct (is_none (custom_listen_host (mode self)))|];
    simpl; eexists; reflexivity.
Qed.

Lemma stop_when_stopped self closing w :
  is_running w = false -> stop self closing w = (inl AssertionError, w).
Proof.
  intros H. apply is_running_false in H. unfold stop. run_method.
  rewrite H. reflexivity.
Qed.

Lemma stop_when_running self closing w :
  is_running w = true ->
  stop self closing w
  = match closing (cleared w) with
    | Some e => (inl e, set_last_exception (Some e) (cleared w))
    | None =>
        (inr tt,
         set_ctx_log
           (ctx_log w ++ [("info", ("Stopped " ++ format_log_desc self ++ " at "
                                      ++ format_addrs (_listen_addrs w) ++ ".")%string)])%list
           (set_last_exception None (cleared w)))
    end.
Proof.
  intros H. apply is_running_true in H. destruct H as [srv H].
  unfold stop, cleared. run_method. rewrite H. simpl.
  destruct (closing _); reflexivity.
Qed.

Lemma stop_leaves_stopped self closing w :
  is_running w = true ->
  is_running (snd (stop self closing w)) = false /\
  listen_addrs (snd (stop self closing w)) = [].
Proof.
  intros R. rewrite stop_when_running by assumption.
  destruct (closing (cleared w)); split; reflexivity.
Qed.

Lemma start_succeeds_inv self listening w w' :
  start self listening w = (inr tt, w') ->
  exists srv names,
    listen_answer self listening = ListenReturns srv /\
    getsocknames (sockets srv) = inr names /\
    is_running w = false /\
    _server w' = Some srv /\ _listen_addrs w' = names.
Proof.
  intros H. destruct (is_running w) eqn:R.
  - rewrite start_when_running in H by assumption. discriminate.
  - destruct (listen_answer self listening) as [srv|e] eqn:A.
    + destruct (getsocknames (sockets srv)) as [e|names] eqn:N.
      * destruct (start_unnamed self listening srv e w R A N) as [e' E].
        rewrite E in H. discriminate.
      * rewrite (start_returns self listening srv names w R A N) in H.
        injection H as <-. exists srv, names. auto.
    + destruct (start_raises self listening e w R A) as [e' E].
      rewrite E in H. discriminate.
Qed.

Lemma getsocknames_length socks names :
  getsocknames socks = inr names -> List.length names = List.length socks.
Proof.
  revert names. induction socks as [|[e|a] socks IH]; simpl; intros names H.
  - now injection H as <-.
  - discriminate.
  - destruct (getsocknames socks) as [e|l]; [discriminate|].
    injection H as <-. simpl. now rewrite (IH l).
Qed.

Lemma run_call_invariant self c w :
  lifecycle_invariant w -> lifecycle_invariant (run_call self c w).
Proof.
  intros Hinv. destruct c as [listening|closing]; simpl.
  - destruct (is_running w) eqn:R.
    + rewrite start_when_running by assumption. exact Hinv.
    + destruct (listen_answer self listening) as [srv|e] eqn:A.
      * destruct (getsocknames (sockets srv)) as [e|names] eqn:N.
        -- destruct (start_unnamed self listening srv e w R A N) as [e' ->].
           intros H. discriminate H.
        -- rewrite (start_returns self listening srv names w R A N).
           intros H. discriminate H.
      * destruct (start_raises self listening e w R A) as [e' ->]. exact Hinv.
  - destruct (is_running w) eqn:R.
    + destruct (stop_leaves_stopped self closing w R) as [Hr Ha].
      intros _. exact Ha.
    + rewrite stop_when_stopped by assumption. exact Hinv.
Qed.

Lemma run_calls_invariant self cs :
  forall w, lifecycle_invariant w -> lifecycle_invariant (run_calls self cs w).
Proof.
  unfold run_calls.
  induction cs as [|c cs IH]; intros w Hw; simpl.
  - exact Hw.
  - apply IH. now apply run_call_invariant.
Qed.

(** C1, as the code has it.  Along every sequence of [start] and [stop]
    calls on a freshly constructed instance: [is_running] is true
    exactly when [_server] holds a server, and [listen_addrs] is empty
    whenever the instance is not running.  A [start] that returns
    leaves the instance running with [listen_addrs] holding the name of
    every socket of the server that [listen] returned, in order, so
    that it is non-empty exactly when that server has a socket.  After
    a [stop] the instance is not running and [listen_addrs] is empty. *)
Theorem listen_addrs_empty_unless_running self cs w0 :
  _server w0 = None -> _listen_addrs w0 = [] ->
  let w := run_calls self cs w0 in
  (is_running w = true <-> exists srv, _server w = Some srv) /\
  (is_running w = false -> listen_addrs w = []) /\
  (forall listening w',
      start self listening w = (inr tt, w') ->
      is_running w' = true /\
      exists srv,
        listen_answer self listening = ListenReturns srv /\
        getsocknames (sockets srv) = inr (listen_addrs w') /\
        (listen_addrs w' <> [] <-> sockets srv <> [])) /\
  (forall closing,
      is_running (snd (stop self closing w)) = false /\
      listen_addrs (snd (stop self closing w)) = []).
Proof.
  intros Hs Ha w.
  assert (Hinv : lifecycle_invariant w).
  { apply run_calls_invariant. intros _. exact Ha. }
  split; [apply is_running_true|].
  split; [exact Hinv|]. split.
  - intros listening w' H.
    destruct (start_succeeds_inv _ _ _ _ H)
      as (srv & names & A & N & _ & Hsrv & Haddrs).
    unfold is_running, listen_addrs. rewrite Hsrv, Haddrs.
    split; [reflexivity|]. exists srv. split; [exact A|]. split; [exact N|].
    apply getsocknames_length in N.
    destruct names, (sockets srv); simpl in N; try discriminate;
      split; congruence.
  - intros closing. destruct (is_running w) eqn:R.
    + now apply stop_leaves_stopped.
    + rewrite stop_when_stopped by assumption.
      split; [exact R | exact (Hinv R)].
Qed.

(** C2, evaluated.  [start] on a running instance and [stop] on an
    instance that is not running both fail on their assertion and
    change nothing.  After a [start] in which [listen] raised, the
    instance is not running, and a further [start] in which [listen]
    returns a server whose sockets all tell their names succeeds and
    leaves the instance running.  But after a [start] in which [listen]
    returned a server and a [getsockname()] raised, the instance is
    running although [start] failed, with [listen_addrs] as before and
    the exception in [last_exception], and every further [start] fails
    on its assertion. *)
Theorem start_stop_misuse self w :
  (is_running w = true ->
   forall listening, start self listening w = (inl AssertionError, w)) /\
  (is_running w = false ->
   forall closing, stop self closing w = (inl AssertionError, w)) /\
  (is_running w = false ->
   forall failing listening e srv names,
     listen_answer self failing = ListenRaises e ->
     listen_answer self listening = ListenReturns srv ->
     getsocknames (sockets srv) = inr names ->
     exists e' w1,
       start self failing w = (inl e', w1) /\
       is_running w1 = false /\
       exists w2,
         start self listening w1 = (inr tt, w2) /\
         is_running w2 = true) /\
  (is_running w = false ->
   forall failing srv e,
     listen_answer self failing = ListenReturns srv ->
     getsocknames (sockets srv) = inl e ->
     exists e' w1,
       start self failing w = (inl e', w1) /\
       is_running w1 = true /\
       listen_addrs w1 = listen_addrs w /\
       last_exception w1 = Some e /\
       forall listening, start self listening w1 = (inl AssertionError, w1)).
Proof.
  split; [|split; [|split]].
  - intros R listening. now apply start_when_running.
  - intros R closing. now apply stop_when_stopped.
  - intros R failing listening e srv names Ae As N.
    destruct (start_raises self failing e w R Ae) as [e' E].
    exists e', (set_last_exception (Some e) w).
    split; [exact E|]. split; [exact R|].
    eexists. split; [apply (start_returns _ _ srv names); [exact R | exact As | exact N] | reflexivity].
  - intros R failing srv e A N.
    destruct (start_unnamed self failing srv e w R A N) as [e' E].
    exists e', (set_last_exception (Some e) (set__server (Some srv) w)).
    split; [exact E|]. repeat (split; [reflexivity|]).
    intros listening. now apply start_when_running.
Qed.

(** C4.  [stop] on a running instance resets [_server] and
    [_listen_addrs] before it closes the server: the outcome of the
    close is the one obtained in the world where both are already reset.
    Whatever that outcome, the instance ends not running with an empty
    [listen_addrs]; when the close raises, the same exception is raised
    by [stop] and stored in [last_exception]; and a [start] that follows
    finds the instance not running, so that its assertion holds, and
    returns when [listen] returns a server whose sockets all tell their
    names. *)
Theorem stop_resets_before_close self closing w :
  is_running w = true ->
  let r := fst (stop self closing w) in
  let w' := snd (stop self closing w) in
  is_running (cleared w) = false /\ listen_addrs (cleared w) = [] /\
  stop self closing w = stop self (fun _ => closing (cleared w)) w /\
  is_running w' = false /\ listen_addrs w' = [] /\
  (forall e, closing (cleared w) = Some e ->
             r = inl e /\ last_exception w' = Some e) /\
  (closing (cleared w) = None -> r = inr tt /\ last_exception w' = None) /\
  (forall listening srv names,
      listen_answer self listening = ListenReturns srv ->
      getsocknames (sockets srv) = inr names ->
      exists w'',
        start self listening w' = (inr tt, w'') /\
        is_running w'' = true /\ listen_addrs w'' = names).
Proof.
  intros R r w'. subst r w'.
  destruct (stop_leaves_stopped self closing w R) as [Hoff Hempty].
  split; [reflexivity|]. split; [reflexivity|]. split.
  { rewrite !stop_when_running by assumption. reflexivity. }
  split; [exact Hoff|]. split; [exact Hempty|].
  split; [|split].
  - intros e E. rewrite stop_when_running, E by assumption.
    split; reflexivity.
  - intros E. rewrite stop_when_running, E by assumption.
    split; reflexivity.
  - intros listening srv names A N.
    eexists. split; [apply (start_returns _ _ srv names);
                     [exact Hoff | exact A | exact N]|].
    split; reflexivity.
Qed.

Lemma append_assoc (a b c : string) : (a ++ b) ++ c = a ++ b ++ c.
Proof. induction a as [|x a IH]; simpl; [reflexivity | now rewrite IH]. Qed.

Lemma port_hint_contains self message port sub :
  sub = "@" ++ str_int (port + 1) \/
  sub = full_spec (mode self) ++ "@" ++ str_int (port + 1) ->
  str_contains sub (message ++ port_hint self port) = true.
Proof.
  unfold port_hint.
  set (pre := String "010" "Try specifying a different port by using `--mode ").
  intros [->| ->].
  - replace (message ++ pre ++ full_spec (mode self) ++ "@"
               ++ str_int (port + 1) ++ "`.")
      with ((message ++ pre ++ full_spec (mode self))
              ++ ("@" ++ str_int (port + 1)) ++ "`.").
    + apply str_contains_app.
    + rewrite !append_assoc. reflexivity.
  - replace (message ++ pre ++ full_spec (mode self) ++ "@"
               ++ str_int (port + 1) ++ "`.")
      with ((message ++ pre)
              ++ (full_spec (mode self) ++ "@" ++ str_int (port + 1)) ++ "`.").
    + apply str_contains_app.
    + rewrite !append_assoc. reflexivity.
Qed.

Lemma append_empty (a : string) : a ++ "" = a.
Proof. induction a as [|x a IH]; simpl; [reflexivity | now rewrite IH]. Qed.

Lemma listen_failure_contains self host port e :
  str_contains (exn_str e) (listen_failure self host port e) = true.
Proof.
  unfold listen_failure.
  set (pre := format_log_desc self ++ " failed to listen on "
                ++ (if String.eqb host "" then "*" else host)
                ++ ":" ++ str_int port ++ " with ").
  replace (format_log_desc self ++ " failed to listen on "
             ++ (if String.eqb host "" then "*" else host)
             ++ ":" ++ str_int port ++ " with " ++ exn_str e)
    with (pre ++ exn_str e ++ "").
  - apply str_contains_app.
  - subst pre. rewrite append_empty, !append_assoc. reflexivity.
Qed.

(** C3, as the code has it.  When [listen] fails with an [OSError]
    whose errno is
    [EADDRINUSE] and the mode has no custom port (hence, by the mode
    grammar, no custom host), [start] raises an [OSError] whose message
    contains ["@"] followed by the listen port plus one, right after the
    mode spec.  For every other [OSError] of [listen], the error is
    surfaced without that hint: [start] raises an [OSError] with the
    errno and the filename of the original and the original as its
    cause, whose message is the description of the failed listen
    followed by the text of the original.  Any other exception is
    raised again as it is.  In all three cases [last_exception] is the
    exception that [listen] raised. *)
Theorem start_bind_failure self listening w errno strerror filename cause :
  is_running w = false ->
  let e := OSError errno strerror filename cause in
  let host := listen_host (mode self) (opt_listen_host options) in
  let port := listen_port (mode self) (opt_listen_port options) in
  (listen_answer self listening = ListenRaises e ->
   errno = EADDRINUSE ->
   custom_listen_port (mode self) = None ->
   custom_listen_host (mode self) = None ->
   start self listening w
   = (inl (OSError errno (listen_failure self host port e ++ port_hint self port)
                   filename (Some e)),
      set_last_exception (Some e) w) /\
   str_contains ("@" ++ str_int (port + 1))
     (listen_failure self host port e ++ port_hint self port) = true /\
   str_contains (full_spec (mode self) ++ "@" ++ str_int (port + 1))
     (listen_failure self host port e ++ port_hint self port) = true) /\
  (listen_answer self listening = ListenRaises e ->
   errno <> EADDRINUSE \/ custom_listen_port (mode self) <> None ->
   start self listening w
   = (inl (OSError errno (listen_failure self host port e) filename (Some e)),
      set_last_exception (Some e) w) /\
   str_contains (exn_str e) (listen_failure self host port e) = true) /\
  (forall e',
      listen_answer self listening = ListenRaises e' ->
      (forall n s f c, e' <> OSError n s f c) ->
      start self listening w = (inl e', set_last_exception (Some e') w)).
Proof.
  intros R e host port. split; [|split].
  - intros A -> Hp Hh. split; [|split].
    + unfold start. run_method. rewrite R. simpl.
      unfold listen_answer in A. rewrite A. simpl.
      rewrite Z.eqb_refl, Hp, Hh. reflexivity.
    + apply port_hint_contains. now left.
    + apply port_hint_contains. now right.
  - intros A H. split; [|apply listen_failure_contains].
    unfold start. run_method. rewrite R. simpl.
    unfold listen_answer in A. rewrite A. simpl.
    destruct (Z.eqb_spec errno EADDRINUSE) as [E|E]; simpl.
    + destruct H as [H|H]; [contradiction|].
      destruct (custom_listen_port (mode self)); [reflexivity | now elim H].
    + reflexivity.
  - intros e' A He'. unfold start. run_method. rewrite R. simpl.
    unfold listen_answer in A. rewrite A.
    destruct e'; try reflexivity.
    now elim (He' errno0 strerror0 filename0 cause0).
Qed.

(** ** Datagram demultiplexing *)

Lemma byte_to_Z_range (b : Byte.byte) : 0 <= byte_to_Z b < 256.
Proof.
  unfold byte_to_Z. pose proof (Byte.to_N_bounded b) as H. lia.
Qed.

Lemma be16_big_endian (b0 b1 : Byte.byte) :
  be16 b0 b1 = 256 * byte_to_Z b0 + byte_to_Z b1.
Proof.
  unfold be16.
  pose proof (byte_to_Z_range b0) as H0.
  pose proof (byte_to_Z_range b1) as H1.
  assert (Hdisj : Z.land (Z.shiftl (byte_to_Z b0) 8) (byte_to_Z b1) = 0).
  { apply Z.bits_inj'. intros n Hn.
    rewrite Z.land_spec, Z.bits_0.
    destruct (Z.ltb_spec n 8) as [Hlt|Hge].
    - rewrite Z.shiftl_spec_low by assumption. reflexivity.
    - replace (byte_to_Z b1) with (byte_to_Z b1 mod 2 ^ 8)
        by (apply Z.mod_small; simpl; lia).
      rewrite Z.mod_pow2_bits_high by lia. apply andb_false_r. }
  rewrite <- Z.lxor_lor by assumption.
  rewrite <- Z.add_nocarry_lxor by assumption.
  rewrite Z.shiftl_mul_pow2 by lia. change (2 ^ 8) with 256. lia.
Qed.

Lemma be16_range (b0 b1 : Byte.byte) : 0 <= be16 b0 b1 < 65536.
Proof.
  rewrite be16_big_endian.
  pose proof (byte_to_Z_range b0). pose proof (byte_to_Z_range b1). lia.
Qed.

(** C5, as the code has it.  For a datagram of at least two bytes the
    DNS classifier returns, without logging, the tuple
    [("udp", dns_id, remote_addr, local_addr)] in which [dns_id] is the
    one-element tuple holding the first two bytes read as a big-endian
    16-bit integer; two datagrams with the same addresses get equal ids
    exactly when their first two bytes give the same integer. *)
Theorem dns_connection_id b0 b1 rest remote_addr local_addr w :
  DnsInstance_make_connection_id
    [VBytes (b0 :: b1 :: rest); remote_addr; local_addr] w
  = (inr (VTuple [VStr "udp"; VTuple [VInt (be16 b0 b1)];
                  remote_addr; local_addr]), w) /\
  be16 b0 b1 = 256 * byte_to_Z b0 + byte_to_Z b1 /\
  0 <= be16 b0 b1 < 65536 /\
  forall c0 c1 rest',
    value_eqb
      (VTuple [VStr "udp"; VTuple [VInt (be16 b0 b1)]; remote_addr; local_addr])
      (VTuple [VStr "udp"; VTuple [VInt (be16 c0 c1)]; remote_addr; local_addr])
    = Z.eqb (be16 b0 b1) (be16 c0 c1) /\
    fst (DnsInstance_make_connection_id
           [VBytes (c0 :: c1 :: rest'); remote_addr; local_addr] w)
    = inr (VTuple [VStr "udp"; VTuple [VInt (be16 c0 c1)];
                   remote_addr; local_addr]).
Proof.
  split; [reflexivity|]. split; [apply be16_big_endian|].
  split; [apply be16_range|].
  intros c0 c1 rest'. split; [|reflexivity].
  destruct (Z.eqb_spec (be16 b0 b1) (be16 c0 c1)) as [E|E].
  - rewrite E. apply value_eqb_refl.
  - apply value_eqb_neq. congruence.
Qed.

Lemma handle_udp_datagram_arity self transport buf remote_addr local_addr w :
  cls self = DnsInstance \/ cls self = UdpInstance ->
  handle_udp_datagram self transport buf remote_addr local_addr w
  = (inl (TypeError "make_connection_id"), w).
Proof.
  intros [H|H]; unfold handle_udp_datagram, make_connection_id, bind;
    rewrite H; reflexivity.
Qed.

(** C6, evaluated.  For a datagram of fewer than two bytes the DNS
    classifier, called with the three arguments of its signature,
    returns [None] after one info entry in the log and raises nothing.
    [handle_udp_datagram] however calls the classifier with four
    arguments: for the same datagram it raises [TypeError] and the log
    stays as it was. *)
Theorem dns_short_datagram self transport bs remote_addr local_addr w :
  cls self = DnsInstance ->
  (List.length bs < 2)%nat ->
  DnsInstance_make_connection_id [VBytes bs; remote_addr; local_addr] w
  = (inr VNone,
     set_ctx_log
       (ctx_log w ++ [("info", ("Invalid DNS datagram received from "
                                  ++ format_address remote_addr ++ ".")%string)])%list
       w) /\
  handle_udp_datagram self transport (VBytes bs) remote_addr local_addr w
  = (inl (TypeError "make_connection_id"), w).
Proof.
  intros Hcls Hlen. split.
  - destruct bs as [|b0 [|b1 bs]]; simpl in Hlen; try lia; reflexivity.
  - apply handle_udp_datagram_arity. now left.
Qed.

(** C7, evaluated.  On an instance of either UDP class,
    [handle_udp_datagram] raises [TypeError] in its first statement for
    every datagram: [manager.connections] gets no entry and no task is
    created, and a second datagram meets the same error instead of an
    existing handler. *)
Theorem handle_udp_datagram_registers_nothing
    self transport buf buf' remote_addr local_addr w :
  cls self = DnsInstance \/ cls self = UdpInstance ->
  let r := handle_udp_datagram self transport buf remote_addr local_addr w in
  fst r = inl (TypeError "make_connection_id") /\
  connections (snd r) = connections w /\
  handlers (snd r) = handlers w /\
  tasks (snd r) = tasks w /\
  handle_udp_datagram self transport buf' remote_addr local_addr (snd r)
  = (inl (TypeError "make_connection_id"), w).
Proof.
  intros H r. subst r.
  rewrite (handle_udp_datagram_arity _ _ _ _ _ _ H). simpl.
  repeat (split; [reflexivity|]).
  now apply handle_udp_datagram_arity.
Qed.

Lemma dict_get_set (d : list (value * nat)) k v :
  dict_get (dict_set d k v) k = Some v.
Proof.
  induction d as [|[k' v'] d IH]; simpl.
  - now rewrite value_eqb_refl.
  - destruct (value_eqb k' k) eqn:E; simpl; rewrite E; [reflexivity | exact IH].
Qed.

Lemma feed_at_last (hs : list ProxyConnectionHandler) h item :
  feed_at (hs ++ [h])%list (List.length hs) item
  = (hs ++ [set_reader_queue (reader_queue h ++ [item])%list h])%list.
Proof.
  induction hs as [|x hs IH]; simpl; [reflexivity | now rewrite IH].
Qed.

Lemma make_top_layer_reader_queue :
  forall self h, reader_queue (make_top_layer self h) = reader_queue h.
Proof.
  fix IH 1. intros [c m g i] h. destruct c; simpl; try reflexivity.
  destruct i as [inner|]; [apply IH | reflexivity].
Qed.

Lemma new_udp_handler_queue self local_addr :
  reader_queue (new_udp_handler self local_addr) = [].
Proof.
  unfold new_udp_handler. rewrite make_top_layer_reader_queue.
  destruct (truthy (is_transparent self)); reflexivity.
Qed.

(** The statements of [handle_udp_datagram] that follow the classifier
    call do register before they spawn: for an id that is not [None] and
    not yet a key of [manager.connections], they store a new handler
    under the id, create one task for it and feed the datagram to its
    reader; run again for the same id before that task has run, they
    find the handler, create nothing, and feed its reader, which then
    holds both datagrams in arrival order. *)
Lemma dispatch_datagram_miss_then_hit
    self cid transport buf buf' remote_addr local_addr w :
  is_VNone cid = false ->
  dict_get (connections w) cid = None ->
  let href := List.length (handlers w) in
  let w1 := snd (dispatch_datagram self cid transport buf
                                   remote_addr local_addr w) in
  let w2 := snd (dispatch_datagram self cid transport buf'
                                   remote_addr local_addr w1) in
  dict_get (connections w1) cid = Some href /\
  tasks w1 = (tasks w ++ [(cid, href)])%list /\
  handlers w1
  = (handlers w
       ++ [set_reader_queue [(buf, remote_addr)]
             (new_udp_handler self local_addr)])%list /\
  connections w2 = connections w1 /\
  tasks w2 = tasks w1 /\
  handlers w2
  = (handlers w
       ++ [set_reader_queue [(buf, remote_addr); (buf', remote_addr)]
             (new_udp_handler self local_addr)])%list.
Proof.
  intros Hid Hmiss href w1 w2.
  assert (E1 : w1 =
    set_handlers
      (handlers w ++ [set_reader_queue [(buf, remote_addr)]
                        (new_udp_handler self local_addr)])%list
      (set_tasks (tasks w ++ [(cid, href)])%list
         (set_connections (dict_set (connections w) cid href) w))).
  { subst w1. unfold dispatch_datagram. rewrite Hid.
    unfold bind, get, modify, feed_data. rewrite Hmiss. simpl.
    rewrite feed_at_last.
    pose proof (new_udp_handler_queue self local_addr) as Hq.
    rewrite Hq. reflexivity. }
  assert (Hhit : dict_get (connections w1) cid = Some href).
  { rewrite E1. simpl. apply dict_get_set. }
  split; [exact Hhit|].
  split; [rewrite E1; reflexivity|].
  split; [rewrite E1; reflexivity|].
  subst w2. unfold dispatch_datagram. rewrite Hid.
  unfold bind, get, modify, feed_data. rewrite Hhit. simpl.
  split; [reflexivity|]. split; [reflexivity|].
  rewrite E1. simpl. subst href. rewrite feed_at_last. reflexivity.
Qed.

(** ** Construction and class attributes *)

Lemma make_without_manager m : make m [] = inl (TypeError "make").
Proof. destruct m; reflexivity. Qed.

(** C8, evaluated.  [UdpInstance(mode, manager)] never returns an
    instance: its call of [ServerInstance.make] with the inner mode
    alone raises [TypeError], whatever the mode and the manager, so no
    inner listener is built over the manager and [make] cannot build an
    instance for a mode of type ["udp"]. *)
Theorem UdpInstance_init_raises m mgr :
  (forall inner, inner_mode m = Some inner ->
                 UdpInstance_init m mgr = inl (TypeError "make")) /\
  (forall inst, UdpInstance_init m mgr <> inr inst) /\
  (mode_type m = "udp" -> forall inst, make m [mgr] <> inr inst).
Proof.
  assert (H : forall inst, UdpInstance_init m mgr <> inr inst).
  { intros inst. unfold UdpInstance_init, UdpInstance_init_inner.
    destruct (inner_mode m) as [inner|]; [|discriminate].
    rewrite make_without_manager. discriminate. }
  split; [|split; [exact H|]].
  - intros inner E. unfold UdpInstance_init, UdpInstance_init_inner.
    rewrite E, make_without_manager. reflexivity.
  - intros E inst.
    replace (make m [mgr]) with (UdpInstance_init m mgr); [apply H|].
    destruct m as [t d f h p lh lp i]. simpl in E. subst t. reflexivity.
Qed.

(** Were an object of class [UdpInstance] to exist, its top layer would
    be the one of its inner server. *)
Lemma UdpInstance_make_top_layer self inner h :
  cls self = UdpInstance -> inner_server self = Some inner ->
  make_top_layer self h = make_top_layer inner h.
Proof.
  intros Hc Hi. destruct self as [c m g i]. simpl in Hc, Hi. subst c i.
  reflexivity.
Qed.

(** C9, evaluated.  On a [DnsInstance], [self.is_transparent] is a
    bound method object, not a boolean: it is true whatever the mode's
    data, it is what [listen] passes as [transparent], and the datagram
    path takes the transparent branch; the boolean that the method would
    return when called is true exactly when the data is
    ["transparent"].  On an object of class [UdpInstance],
    [is_transparent] and [log_desc] are bound method objects too. *)
Theorem is_transparent_bound_method self host port local_addr :
  (cls self = DnsInstance ->
   is_transparent self
   = BoundMethod (Val (String.eqb (data (mode self)) "transparent")) /\
   truthy (is_transparent self) = true /\
   listen_call self host port
   = UdpStartServer host port
       (BoundMethod (Val (String.eqb (data (mode self)) "transparent"))) /\
   new_udp_handler self local_addr
   = make_top_layer self
       (set_server_transport_protocol "udp"
          (set_server_address (Some local_addr)
             (set_connection_timeout (Some 20)
                (set_client_transport_protocol "udp"
                   (set_reader_queue []
                      (LiveConnectionHandler_init (mode self)))))))) /\
  (cls self = UdpInstance ->
   truthy (is_transparent self) = true /\
   (exists call, is_transparent self = BoundMethod call) /\
   (exists call, log_desc self = BoundMethod call) /\
   format_log_desc self = bound_method_repr).
Proof.
  split; intros H.
  - assert (E : is_transparent self
                = BoundMethod (Val (String.eqb (data (mode self)) "transparent"))).
    { destruct self as [c m g i]. simpl in H. subst c. reflexivity. }
    split; [exact E|]. split; [rewrite E; reflexivity|]. split.
    + unfold listen_call. rewrite H, E. reflexivity.
    + unfold new_udp_handler. rewrite E. reflexivity.
  - unfold format_log_desc.
    destruct self as [c m g i]. simpl in H. subst c. simpl.
    split; [reflexivity|]. split; [eexists; reflexivity|].
    split; [eexists; reflexivity | reflexivity].
Qed.

(** ** URL parsing *)

Lemma full_path_of_slash parsed : startswith "/" (full_path_of parsed) = true.
Proof.
  unfold full_path_of.
  destruct (startswith "/" (urlunparse _)) eqn:E; [exact E|].
  unfold startswith. simpl. destruct (urlunparse _); reflexivity.
Qed.

Lemma parse_checked_accepts host parsed s h p fp :
  parse_checked host parsed = inr (s, h, p, fp) ->
  s = scheme parsed /\ h = host /\ fp = full_path_of parsed /\
  is_valid_host host = true /\ is_valid_port p = true /\
  (port_of parsed = PortNone -> p = default_port_of parsed) /\
  (forall q, port_of parsed = PortInt q -> q <> 0 -> p = q).
Proof.
  unfold parse_checked. intros H.
  destruct (is_valid_host host) eqn:Hh;
    [|destruct (port_of parsed); discriminate].
  destruct (port_of parsed) as [|q|] eqn:Hp; simpl in H; try discriminate.
  - destruct (is_valid_port (default_port_of parsed)) eqn:Hv;
      simpl in H; [|discriminate].
    injection H as <- <- <- <-.
    repeat split; try reflexivity; try assumption; discriminate.
  - destruct (Z.eqb_spec q 0) as [Hq|Hq].
    + destruct (is_valid_port (default_port_of parsed)) eqn:Hv;
        simpl in H; [|discriminate].
      injection H as <- <- <- <-.
      repeat split; try reflexivity; try assumption; try discriminate.
      intros q' E Hq'. injection E as <-. contradiction.
    + destruct (is_valid_port q) eqn:Hv; simpl in H; [|discriminate].
      injection H as <- <- <- <-.
      repeat split; try reflexivity; try assumption; try discriminate.
      intros q' E _. now injection E as <-.
Qed.

Lemma encode_parse_result_encodes found encoded :
  encode_parse_result found = inr encoded <-> encodes_to found encoded.
Proof.
  unfold encode_parse_result, encodes_to.
  destruct encoded as [b1 b2 b3 b4 b5 b6]. simpl.
  destruct (encode_ascii (scheme found)) as [|a1];
    [split; [discriminate | intros (H & _); discriminate]|].
  destruct (encode_ascii (netloc found)) as [|a2];
    [split; [discriminate | intros (_ & H & _); discriminate]|].
  destruct (encode_ascii (path found)) as [|a3];
    [split; [discriminate | intros (_ & _ & H & _); discriminate]|].
  destruct (encode_ascii (params found)) as [|a4];
    [split; [discriminate | intros (_ & _ & _ & H & _); discriminate]|].
  destruct (encode_ascii (query found)) as [|a5];
    [split; [discriminate | intros (_ & _ & _ & _ & H & _); discriminate]|].
  destruct (encode_ascii (fragment found)) as [|a6];
    [split; [discriminate | intros (_ & _ & _ & _ & _ & H); discriminate]|].
  split.
  - intros H. injection H as -> -> -> -> -> ->. repeat split.
  - intros (H1 & H2 & H3 & H4 & H5 & H6).
    injection H1 as ->. injection H2 as ->. injection H3 as ->.
    injection H4 as ->. injection H5 as ->. injection H6 as ->. reflexivity.
Qed.

Lemma falsy_bytes_some h : falsy_bytes (Some h) = false <-> h <> "".
Proof.
  simpl. destruct (String.eqb_spec h ""); split; congruence.
Qed.

Lemma falsy_text_some h : falsy_text (Some h) = false <-> h <> [].
Proof. destruct h; simpl; split; congruence. Qed.

(** The pair that the first half of [parse] hands to the second, in
    terms of what [urlparse] found in the URL. *)
Lemma parse_host_bytes b host parsed :
  parse_host (UrlBytes b) = inr (host, parsed)
  <-> urlparse_bytes b = inr parsed /\
      hostname_bytes parsed = Some host /\ host <> "".
Proof.
  unfold parse_host. destruct (urlparse_bytes b) as [e|found].
  - split; [discriminate | intros (H & _); discriminate].
  - destruct (hostname_bytes found) as [h|] eqn:Hn.
    + destruct (falsy_bytes (Some h)) eqn:F.
      * split; [discriminate|]. intros (H & Hh & Hne).
        injection H as <-. rewrite Hn in Hh. injection Hh as <-.
        apply falsy_bytes_some in Hne. congruence.
      * apply falsy_bytes_some in F. split.
        -- intros H. injection H as <- <-. auto.
        -- intros (H & Hh & _). injection H as <-.
           rewrite Hn in Hh. injection Hh as <-. reflexivity.
    + simpl. split; [discriminate|]. intros (H & Hh & _).
      injection H as <-. congruence.
Qed.

Lemma parse_host_text t host parsed :
  parse_host (UrlText t) = inr (host, parsed)
  <-> exists found hostname,
        urlparse_text t = inr found /\
        hostname_text found = Some hostname /\ hostname <> [] /\
        encode_idna hostname = Some host /\
        encodes_to found parsed.
Proof.
  unfold parse_host. destruct (urlparse_text t) as [e|found].
  - split; [discriminate | intros (? & ? & H & _); discriminate].
  - destruct (hostname_text found) as [hn|] eqn:Hn.
    + destruct (falsy_text (Some hn)) eqn:F.
      * split; [discriminate|]. intros (f & h & H & Hh & Hne & _).
        injection H as <-. rewrite Hn in Hh. injection Hh as <-.
        apply falsy_text_some in Hne. congruence.
      * apply falsy_text_some in F.
        destruct (encode_idna hn) as [hb|] eqn:Ei.
        -- destruct (encode_parse_result found) as [e|enc] eqn:Ep.
           ++ split; [discriminate|].
              intros (f & h & H & _ & _ & _ & He). injection H as <-.
              apply encode_parse_result_encodes in He. congruence.
           ++ apply encode_parse_result_encodes in Ep. split.
              ** intros H. injection H as <- <-. exists found, hn. auto.
              ** intros (f & h & H & Hh & _ & Hi & He). injection H as <-.
                 rewrite Hn in Hh. injection Hh as <-.
                 rewrite Ei in Hi. injection Hi as <-.
                 apply encode_parse_result_encodes in He.
                 apply encode_parse_result_encodes in Ep. congruence.
        -- split; [discriminate|].
           intros (f & h & H & Hh & _ & Hi & _). injection H as <-.
           rewrite Hn in Hh. injection Hh as <-. congruence.
    + simpl. split; [discriminate|].
      intros (f & h & H & Hh & _). injection H as <-. congruence.
Qed.

Lemma parse_checked_rejects host parsed :
  is_valid_host host = false \/
  port_of parsed = PortInvalid \/
  (exists p, port_of parsed = PortInt p /\ p <> 0 /\ is_valid_port p = false) ->
  exists e, parse_checked host parsed = inl e /\ is_ValueError e = true.
Proof.
  unfold parse_checked. intros [H|[H|(p & H & Hp & Hv)]].
  - rewrite H. destruct (port_of parsed); simpl; eexists; split; reflexivity.
  - rewrite H. eexists; split; reflexivity.
  - rewrite H. destruct (Z.eqb_spec p 0) as [|_]; [contradiction|].
    rewrite Hv. destruct (is_valid_host host); simpl; eexists; split;
      reflexivity.
Qed.

(** C10.  With [is_valid_port] rejecting every integer outside 0 to
    65535.  For a URL given as bytes, every result of [parse] has the
    scheme and the hostname that [urlparse] found in the URL, a path
    that starts with a slash (the unparsed path, params, query and
    fragment that [urlparse] found, with a slash put in front when there
    is none) and, when [urlparse] found no port, the port 443 for the
    scheme [https] and 80 otherwise.  For a URL given as unicode the
    same holds of the ASCII encodings of the components that [urlparse]
    found, the host being the IDNA encoding of the hostname.  [parse]
    raises [ValueError] when the URL has no hostname, when the host is
    not valid, and when the port is out of range. *)
Theorem parse_spec url :
  (forall p, p < 0 \/ 65535 < p -> is_valid_port p = false) ->
  (forall s h p fp,
      parse url = inr (s, h, p, fp) ->
      startswith "/" fp = true /\
      exists parsed,
        match url with
        | UrlBytes b =>
            urlparse_bytes b = inr parsed /\ hostname_bytes parsed = Some h
        | UrlText t =>
            exists found hostname,
              urlparse_text t = inr found /\
              hostname_text found = Some hostname /\
              encode_idna hostname = Some h /\
              encodes_to found parsed
        end /\
        s = scheme parsed /\
        fp = (let u := urlunparse
                         (mkParseResult "" "" (path parsed) (params parsed)
                                        (query parsed) (fragment parsed)) in
              if startswith "/" u then u else "/" ++ u) /\
        (port_of parsed = PortNone ->
         p = if String.eqb s "https" then 443 else 80)) /\
  (forall b parsed,
      url = UrlBytes b -> urlparse_bytes b = inr parsed ->
      falsy_bytes (hostname_bytes parsed) = true ->
      parse url = inl (ValueError "No hostname given")) /\
  (forall t parsed,
      url = UrlText t -> urlparse_text t = inr parsed ->
      falsy_text (hostname_text parsed) = true ->
      parse url = inl (ValueError "No hostname given")) /\
  (forall b parsed host,
      url = UrlBytes b -> urlparse_bytes b = inr parsed ->
      hostname_bytes parsed = Some host -> host <> "" ->
      is_valid_host host = false \/
      port_of parsed = PortInvalid \/
      (exists p, port_of parsed = PortInt p /\ (p < 0 \/ 65535 < p)) ->
      exists e, parse url = inl e /\ is_ValueError e = true) /\
  (forall t found hostname host parsed,
      url = UrlText t -> urlparse_text t = inr found ->
      hostname_text found = Some hostname -> hostname <> [] ->
      encode_idna hostname = Some host ->
      encodes_to found parsed ->
      is_valid_host host = false \/
      port_of parsed = PortInvalid \/
      (exists p, port_of parsed = PortInt p /\ (p < 0 \/ 65535 < p)) ->
      exists e, parse url = inl e /\ is_ValueError e = true).
Proof.
  intros Hrange.
  assert (Hbad : forall host parsed,
    is_valid_host host = false \/
    port_of parsed = PortInvalid \/
    (exists p, port_of parsed = PortInt p /\ (p < 0 \/ 65535 < p)) ->
    exists e, parse_checked host parsed = inl e /\ is_ValueError e = true).
  { intros host parsed [H|[H|(p & H & Hp)]]; apply parse_checked_rejects;
      [now left | now right; left |].
    right; right. exists p. split; [exact H|].
    split; [lia | now apply Hrange]. }
  split; [|split; [|split; [|split]]].
  - intros s h p fp H. unfold parse in H.
    destruct (parse_host url) as [e|[host parsed]] eqn:Hh; [discriminate|].
    apply parse_checked_accepts in H.
    destruct H as (-> & -> & -> & _ & _ & Hnone & _).
    split; [apply full_path_of_slash|].
    exists parsed. split; [|repeat (split; [reflexivity|]); exact Hnone].
    destruct url as [b|t].
    + apply parse_host_bytes in Hh. destruct Hh as (Hu & Hn & _). auto.
    + apply parse_host_text in Hh.
      destruct Hh as (found & hostname & Hu & Hn & _ & Hi & He).
      exists found, hostname. auto.
  - intros b parsed -> Hu Hf. unfold parse, parse_host.
    rewrite Hu, Hf. reflexivity.
  - intros t parsed -> Hu Hf. unfold parse, parse_host.
    rewrite Hu, Hf. reflexivity.
  - intros b parsed host -> Hu Hn Hne H. unfold parse.
    rewrite (proj2 (parse_host_bytes b host parsed)) by auto.
    now apply Hbad.
  - intros t found hostname host parsed -> Hu Hn Hne Hi He H. unfold parse.
    rewrite (proj2 (parse_host_text t host parsed))
      by (exists found, hostname; auto).
    now apply Hbad.
Qed.

(** ** Further properties of the lifecycle *)

(** X1.  A [start] in which [listen] raises changes nothing but
    [last_exception], which becomes the exception of [listen]: the
    instance is still not running, [listen_addrs], the log and the
    manager's connections are as before, and [start] raises. *)
Theorem failed_start_only_records self listening e w :
  is_running w = false ->
  listen_answer self listening = ListenRaises e ->
  snd (start self listening w) = set_last_exception (Some e) w /\
  exists e', fst (start self listening w) = inl e'.
Proof.
  intros R A. destruct (start_raises self listening e w R A) as [e' E].
  rewrite E. split; [reflexivity | now exists e'].
Qed.

(** X2.  A [start] that binds a server whose sockets all tell their
    names, followed by a [stop] whose close is clean: both return, the
    instance is back to not running with an empty [listen_addrs] and no
    [last_exception], and the log has gained exactly two info lines,
    "listening at" and "Stopped ... at", both listing the names of the
    server's sockets joined by " and ". *)
Theorem start_then_stop self listening closing srv names w :
  is_running w = false ->
  listen_answer self listening = ListenReturns srv ->
  getsocknames (sockets srv) = inr names ->
  closing (cleared (snd (start self listening w))) = None ->
  let w1 := snd (start self listening w) in
  let w2 := snd (stop self closing w1) in
  fst (start self listening w) = inr tt /\
  fst (stop self closing w1) = inr tt /\
  _server w2 = None /\ listen_addrs w2 = [] /\ last_exception w2 = None /\
  ctx_log w2
  = (ctx_log w
       ++ [("info", (format_log_desc self ++ " listening at "
                       ++ join " and " (map format_address names)
                       ++ ".")%string);
           ("info", ("Stopped " ++ format_log_desc self ++ " at "
                       ++ join " and " (map format_address names)
                       ++ ".")%string)])%list.
Proof.
  intros R A N C w1 w2. subst w2 w1. revert C.
  rewrite (start_returns self listening srv names w R A N). simpl. intros C.
  rewrite stop_when_running by reflexivity.
  rewrite C. simpl.
  repeat (split; [reflexivity|]).
  rewrite <- app_assoc. reflexivity.
Qed.

(** X4.  [last_exception] after a call: a call that fails on its entry
    assertion leaves it as it was; a [start] on an instance that is not
    running sets it to the exception of [listen], or to the exception
    of the first [getsockname()] that raises, and clears it when both
    return; a [stop] on a running instance sets it to the exception of
    the close, or clears it when the close is clean. *)
Theorem last_exception_after_call self c w :
  last_exception (run_call self c w)
  = match c with
    | CallStart listening =>
        if is_running w then last_exception w
        else
          match listen_answer self listening with
          | ListenReturns srv =>
              match getsocknames (sockets srv) with
              | inr _ => None
              | inl e => Some e
              end
          | ListenRaises e => Some e
          end
    | CallStop closing =>
        if is_running w then closing (cleared w) else last_exception w
    end.
Proof.
  destruct c as [listening|closing]; simpl.
  - destruct (is_running w) eqn:R.
    + rewrite start_when_running by assumption. reflexivity.
    + destruct (listen_answer self listening) as [srv|e] eqn:A.
      * destruct (getsocknames (sockets srv)) as [e|names] eqn:N.
        -- destruct (start_unnamed self listening srv e w R A N) as [e' ->].
           reflexivity.
        -- rewrite (start_returns self listening srv names w R A N).
           reflexivity.
      * destruct (start_raises self listening e w R A) as [e' ->]. reflexivity.
  - destruct (is_running w) eqn:R.
    + rewrite stop_when_running by assumption.
      destruct (closing (cleared w)); reflexivity.
    + rewrite stop_when_stopped by assumption. reflexivity.
Qed.

(** ** Further properties of [ServerInstance.make] *)

(** X5.  [make] with a mode and a manager: a mode whose type is not
    registered raises [KeyError] with that type; a mode whose type is
    registered for a class other than [UdpInstance] gives an instance of
    that class which holds the very mode and manager.  With a mode
    string, [make] raises [TypeError] for a wrong number of arguments
    before it parses the string, raises what [ProxyMode.parse] raises,
    and otherwise is [make] on the parsed mode. *)
Theorem make_by_registry m s mgr :
  (registry_get modes_registry (mode_type m) = None ->
   make m [mgr] = inl (KeyError (mode_type m))) /\
  (forall c, registry_get modes_registry (mode_type m) = Some c ->
             c <> UdpInstance ->
             make m [mgr] = inr (mkServerInstance c m mgr None)) /\
  (forall args, List.length args <> 1%nat ->
                make m args = inl (TypeError "make") /\
                make_str s args = inl (TypeError "make")) /\
  (forall e, ProxyMode_parse s = inl e -> make_str s [mgr] = inl e) /\
  (forall m', ProxyMode_parse s = inr m' -> make_str s [mgr] = make m' [mgr]).
Proof.
  split; [|split; [|split; [|split]]].
  - intros H. destruct m; simpl in *. rewrite H. reflexivity.
  - intros c H Hc. destruct m; simpl in *. rewrite H.
    destruct c; try reflexivity. now elim Hc.
  - intros args Hlen. unfold make_str.
    destruct args as [|a [|b args]]; simpl in Hlen; try lia;
      (split; [destruct m; reflexivity | reflexivity]).
  - intros e H. unfold make_str. rewrite H. reflexivity.
  - intros m' H. unfold make_str. rewrite H. reflexivity.
Qed.

(** ** Further properties of the classifiers *)

Lemma byte_to_Z_inj (a b : Byte.byte) : byte_to_Z a = byte_to_Z b -> a = b.
Proof.
  unfold byte_to_Z. intros H. apply N2Z.inj in H.
  pose proof (Byte.of_to_N a) as Ha. pose proof (Byte.of_to_N b) as Hb.
  rewrite H in Ha. congruence.
Qed.

Lemma be16_inj (b0 b1 c0 c1 : Byte.byte) :
  be16 b0 b1 = be16 c0 c1 -> b0 = c0 /\ b1 = c1.
Proof.
  rewrite !be16_big_endian. intros H.
  pose proof (byte_to_Z_range b0). pose proof (byte_to_Z_range b1).
  pose proof (byte_to_Z_range c0). pose proof (byte_to_Z_range c1).
  split; apply byte_to_Z_inj; lia.
Qed.

(** X6.  The DNS classifier, called with a byte string, returns [None]
    exactly when the datagram has fewer than two bytes, and only then
    does it log; given anything but a byte string as data, the
    [TypeError] of [unpack_from] is not caught and nothing is logged. *)
Theorem dns_classifier_drops_short_only buf remote_addr local_addr w :
  (forall bs, buf = VBytes bs ->
     (fst (DnsInstance_make_connection_id [buf; remote_addr; local_addr] w)
      = inr VNone <-> (List.length bs < 2)%nat) /\
     ((2 <= List.length bs)%nat ->
      snd (DnsInstance_make_connection_id [buf; remote_addr; local_addr] w)
      = w)) /\
  ((forall bs, buf <> VBytes bs) ->
   DnsInstance_make_connection_id [buf; remote_addr; local_addr] w
   = (inl (TypeError "unpack_from"), w)).
Proof.
  split.
  - intros bs ->. destruct bs as [|b0 [|b1 bs]]; simpl; split;
      try (split; [intros _; lia | reflexivity]);
      try (intros H; lia); try reflexivity.
    split; [discriminate | lia].
  - intros H. destruct buf; try reflexivity. now elim (H b).
Qed.

(** X7.  Two DNS datagrams of at least two bytes get the same
    connection id exactly when their first two bytes and their remote
    and local addresses are the same; the bytes after the transaction id
    play no part. *)
Theorem dns_ids_equal_iff
    b0 b1 rest c0 c1 rest' remote_addr local_addr remote_addr' local_addr' w w' :
  fst (DnsInstance_make_connection_id
         [VBytes (b0 :: b1 :: rest); remote_addr; local_addr] w)
  = fst (DnsInstance_make_connection_id
           [VBytes (c0 :: c1 :: rest'); remote_addr'; local_addr'] w')
  <-> b0 = c0 /\ b1 = c1 /\
      remote_addr = remote_addr' /\ local_addr = local_addr'.
Proof.
  simpl. split.
  - intros H. injection H as Hid Hr Hl.
    destruct (be16_inj _ _ _ _ Hid). auto.
  - intros (-> & -> & -> & ->). reflexivity.
Qed.

(** The plain UDP classifier never drops a datagram and never
    looks at its data: the id is [("udp", remote_addr, local_addr)], it
    is not [None], the world is untouched, and two datagrams get equal
    ids exactly when their remote and local addresses are equal. *)
Theorem udp_connection_id buf buf' remote_addr local_addr
    remote_addr' local_addr' w :
  UdpInstance_make_connection_id [buf; remote_addr; local_addr] w
  = (inr (VTuple [VStr "udp"; remote_addr; local_addr]), w) /\
  is_VNone (VTuple [VStr "udp"; remote_addr; local_addr]) = false /\
  (fst (UdpInstance_make_connection_id [buf; remote_addr; local_addr] w)
   = fst (UdpInstance_make_connection_id [buf'; remote_addr'; local_addr'] w)
   <-> remote_addr = remote_addr' /\ local_addr = local_addr').
Proof.
  split; [reflexivity|]. split; [reflexivity|]. simpl. split.
  - intros H. injection H as -> ->. auto.
  - intros [-> ->]. reflexivity.
Qed.

(** ** Further properties of the datagram path *)

Lemma dict_set_missing (d : list (value * nat)) k v :
  dict_get d k = None -> dict_set d k v = (d ++ [(k, v)])%list.
Proof.
  induction d as [|[k' v'] d IH]; simpl; [reflexivity|].
  destruct (value_eqb k' k); [discriminate|].
  intros H. now rewrite IH.
Qed.

Lemma dict_get_app (d : list (value * nat)) k v k' :
  dict_get (d ++ [(k, v)])%list k'
  = match dict_get d k' with
    | Some x => Some x
    | None => if value_eqb k k' then Some v else None
    end.
Proof.
  induction d as [|[k0 v0] d IH]; simpl; [reflexivity|].
  destruct (value_eqb k0 k'); [reflexivity | exact IH].
Qed.

Lemma dispatch_datagram_miss self cid transport buf remote_addr local_addr w :
  is_VNone cid = false ->
  dict_get (connections w) cid = None ->
  dispatch_datagram self cid transport buf remote_addr local_addr w
  = (inr tt,
     set_handlers
       (handlers w ++ [set_reader_queue [(buf, remote_addr)]
                         (new_udp_handler self local_addr)])%list
       (set_tasks (tasks w ++ [(cid, List.length (handlers w))])%list
          (set_connections
             (connections w ++ [(cid, List.length (handlers w))])%list w))).
Proof.
  intros Hid Hmiss. unfold dispatch_datagram. rewrite Hid.
  unfold feed_data, bind, get, modify. rewrite Hmiss.
  cbn [fst snd handlers connections tasks set_handlers set_connections
       set_tasks].
  rewrite feed_at_last, new_udp_handler_queue, dict_set_missing by assumption.
  reflexivity.
Qed.

Lemma dispatch_datagram_hit
    self cid transport buf remote_addr local_addr href w :
  is_VNone cid = false ->
  dict_get (connections w) cid = Some href ->
  dispatch_datagram self cid transport buf remote_addr local_addr w
  = (inr tt, set_handlers (feed_at (handlers w) href (buf, remote_addr)) w).
Proof.
  intros Hid Hhit. unfold dispatch_datagram. rewrite Hid.
  unfold feed_data, bind, get, modify. rewrite Hhit. reflexivity.
Qed.

(** X9.  Datagrams for two different ids, neither registered yet, are
    kept apart: each id gets its own handler, dict entry and task, in
    the order of arrival, and each reader holds only the datagram of
    its id. *)
Theorem distinct_ids_get_distinct_handlers
    self cid1 cid2 transport buf1 buf2 remote1 remote2 local_addr w :
  is_VNone cid1 = false -> is_VNone cid2 = false ->
  cid1 <> cid2 ->
  dict_get (connections w) cid1 = None ->
  dict_get (connections w) cid2 = None ->
  let n := List.length (handlers w) in
  let w1 := snd (dispatch_datagram self cid1 transport buf1
                                   remote1 local_addr w) in
  let w2 := snd (dispatch_datagram self cid2 transport buf2
                                   remote2 local_addr w1) in
  dict_get (connections w2) cid1 = Some n /\
  dict_get (connections w2) cid2 = Some (S n) /\
  handlers w2
  = (handlers w
       ++ [set_reader_queue [(buf1, remote1)] (new_udp_handler self local_addr);
           set_reader_queue [(buf2, remote2)] (new_udp_handler self local_addr)])%list /\
  tasks w2 = (tasks w ++ [(cid1, n); (cid2, S n)])%list.
Proof.
  intros H1 H2 Hne M1 M2 n w1 w2. subst w2 w1.
  rewrite (dispatch_datagram_miss _ _ _ _ _ _ _ H1 M1). simpl.
  assert (M2' : dict_get (connections w ++ [(cid1, n)])%list cid2 = None).
  { rewrite dict_get_app, M2, value_eqb_neq by assumption. reflexivity. }
  rewrite dispatch_datagram_miss by assumption. simpl.
  rewrite !dict_get_app, M1, M2, (value_eqb_neq cid1 cid2) by assumption.
  rewrite !value_eqb_refl.
  rewrite !length_app. simpl. subst n.
  rewrite Nat.add_1_r, <- !app_assoc. simpl. repeat split; reflexivity.
Qed.

Lemma make_top_layer_frame :
  forall self h,
    client_transport_protocol (make_top_layer self h)
    = client_transport_protocol h /\
    server_transport_protocol (make_top_layer self h)
    = server_transport_protocol h /\
    connection_timeout (make_top_layer self h) = connection_timeout h.
Proof.
  fix IH 1. intros [c m g i] h. destruct c; simpl; auto.
  destruct i as [inner|]; [apply IH | auto].
Qed.

(** X11.  The handler created for a new datagram flow has the transport
    protocol ["udp"] on the client and on the server side, a connection
    timeout of 20 and an empty reader, whatever the class; on a
    [DnsInstance] its layer is the DNS layer and its server address is
    the mode's data, or ["resolve-local"] when there is none, with port
    53, whatever the local address of the datagram. *)
Theorem new_udp_handler_attributes self local_addr :
  let h := new_udp_handler self local_addr in
  client_transport_protocol h = "udp" /\
  server_transport_protocol h = "udp" /\
  connection_timeout h = Some 20 /\
  reader_queue h = [] /\
  (cls self = DnsInstance ->
   layer h = DNSLayer /\
   server_address h
   = Some (VTuple [VStr (if String.eqb (data (mode self)) ""
                         then "resolve-local" else data (mode self));
                   VInt 53])).
Proof.
  intros h. subst h.
  split; [|split; [|split; [|split]]].
  - unfold new_udp_handler.
    rewrite (proj1 (make_top_layer_frame _ _)).
    destruct (truthy (is_transparent self)); reflexivity.
  - unfold new_udp_handler.
    rewrite (proj1 (proj2 (make_top_layer_frame _ _))). reflexivity.
  - unfold new_udp_handler.
    rewrite (proj2 (proj2 (make_top_layer_frame _ _))).
    destruct (truthy (is_transparent self)); reflexivity.
  - apply new_udp_handler_queue.
  - intros H. unfold new_udp_handler.
    destruct self as [c m g i]. simpl in H. subst c. simpl. auto.
Qed.

(** ** Stream connections *)

(** A connection accepted by a regular, upstream, reverse or
    SOCKS5 instance is served under the id [("tcp", peername,
    sockname)] with the handler as constructed but for its layer, which
    is the top layer of the class; the platform is not consulted and
    nothing is logged before the connection is served. *)
Theorem tcp_connection_plain self writer serve w :
  cls self = RegularInstance \/ cls self = UpstreamInstance \/
  cls self = ReverseInstance \/ cls self = Socks5Instance ->
  handle_tcp_connection self writer serve w
  = serve (VTuple [VStr "tcp"; peername writer; sockname writer])
          (set_layer
             match cls self with
             | RegularInstance => HttpProxy
             | UpstreamInstance => HttpUpstreamProxy
             | ReverseInstance => ReverseProxy
             | _ => Socks5Proxy
             end
             (LiveConnectionHandler_init (mode self)))
          w.
Proof.
  intros H. destruct self as [c m g i]. simpl in H.
  destruct H as [-> | [-> | [-> | ->]]]; reflexivity.
Qed.

(** X12.  A connection accepted by a transparent instance: without
    [platform.original_addr] the assertion fails and the connection is
    not served; when the lookup returns an address the connection is
    served with that address as the server address; when the lookup
    raises, one error entry "Transparent mode failure" is logged and the
    connection is served all the same, with the server address of the
    handler as constructed.  In both served cases the layer is the
    transparent proxy layer. *)
Theorem tcp_connection_transparent self writer serve w :
  cls self = TransparentInstance ->
  let cid := VTuple [VStr "tcp"; peername writer; sockname writer] in
  let h0 := LiveConnectionHandler_init (mode self) in
  (original_addr = None ->
   handle_tcp_connection self writer serve w = (inl AssertionError, w)) /\
  (forall lookup a,
      original_addr = Some lookup -> lookup (socket writer) = inr a ->
      handle_tcp_connection self writer serve w
      = serve cid (set_layer TransparentProxy (set_server_address (Some a) h0)) w) /\
  (forall lookup e,
      original_addr = Some lookup -> lookup (socket writer) = inl e ->
      handle_tcp_connection self writer serve w
      = serve cid (set_layer TransparentProxy h0)
              (set_ctx_log
                 (ctx_log w
                    ++ [("error", ("Transparent mode failure: "
                                     ++ exn_repr e)%string)])%list
                 w)).
Proof.
  intros H cid h0. subst cid h0.
  destruct self as [c m g i]. simpl in H. subst c.
  unfold handle_tcp_connection, accept_tcp_connection. simpl.
  split; [|split].
  - intros ->. reflexivity.
  - intros lookup a -> Ha.
    unfold bind, try_except_else, ret. rewrite Ha. reflexivity.
  - intros lookup e -> He.
    unfold bind, try_except_else, ret, log_error, modify. rewrite He.
    reflexivity.
Qed.

(** ** Hooks *)

(** X13.  [handle_hook] makes all its calls inside the scope of the
    disarmed watchdog, which it always leaves: a hook that does not have
    exactly one argument is not delivered and the scope is left with a
    [ValueError]; a hook with one argument is delivered exactly once,
    first; the handler waits for the resume of the argument exactly when
    the argument is a flow and the delivery did not raise; and the
    scope is left without an exception exactly when the delivery and the
    wait, if any, raised nothing. *)
Theorem handle_hook_calls args delivered resumed :
  exists body raised,
    handle_hook args delivered resumed
    = (DisarmEnter :: body ++ [DisarmExit raised])%list /\
    (List.length args <> 1%nat ->
     body = [] /\ raised = Some (ValueError "unpack")) /\
    (List.length args = 1%nat ->
     exists rest,
       body = HandleLifecycle args :: rest /\
       (rest = [] \/ exists flow, rest = [WaitForResume flow])) /\
    (forall flow,
        In (WaitForResume flow) body
        <-> args = [FlowArg flow] /\ delivered = None) /\
    (raised = None
     <-> List.length args = 1%nat /\ delivered = None /\
         (forall flow, args = [FlowArg flow] -> resumed = None)).
Proof.
  exists (fst (handle_hook_body args delivered resumed)),
         (snd (handle_hook_body args delivered resumed)).
  split; [reflexivity|].
  destruct args as [|arg [|arg' args]]; simpl.
  - split; [auto|]. split; [discriminate|]. split.
    + intros flow. split; [contradiction | intros [H _]; discriminate].
    + split; [discriminate | intros [H _]; discriminate].
  - split; [intros H; now elim H|].
    destruct delivered as [e|]; simpl.
    + split; [intros _; exists []; auto|]. split.
      * intros flow. split.
        -- intros [H|[]]. discriminate.
        -- intros [_ H]. discriminate.
      * split; [discriminate | intros (_ & H & _); discriminate].
    + destruct arg as [flow0|obj]; simpl.
      * split; [intros _; exists [WaitForResume flow0]; eauto|]. split.
        -- intros flow. split.
           ++ intros [H|[H|[]]]; [discriminate|]. injection H as ->. auto.
           ++ intros [H _]. injection H as ->. auto.
        -- split.
           ++ intros ->. repeat split. 
           ++ intros (_ & _ & H). now apply (H flow0).
      * split; [intros _; exists []; auto|]. split.
        -- intros flow. split.
           ++ intros [H|[]]. discriminate.
           ++ intros [H _]. discriminate.
        -- split; [intros _; repeat split; intros flow H; discriminate | auto].
  - split; [auto|]. split; [discriminate|]. split.
    + intros flow. split; [contradiction | intros [H _]; discriminate].
    + split; [discriminate | intros [H _]; discriminate].
Qed.

(** ** Further properties of URL parsing *)

Lemma encode_ascii_error t e : encode_ascii t = inl e -> e = UnicodeError.
Proof.
  revert e. induction t as [|c t IH]; simpl; intros e; [discriminate|].
  destruct (c <? 128)%N; [|congruence].
  destruct (encode_ascii t); [|discriminate].
  intros H. injection H as <-. now apply IH.
Qed.

Lemma decode_ascii_error b e : decode_ascii b = inl e -> e = UnicodeError.
Proof.
  revert e. induction b as [|c b IH]; simpl; intros e; [discriminate|].
  destruct (N_of_ascii c <? 128)%N; [|congruence].
  destruct (decode_ascii b); [|discriminate].
  intros H. injection H as <-. now apply IH.
Qed.

Lemma encode_decode_ascii t b : encode_ascii t = inr b -> decode_ascii b = inr t.
Proof.
  revert b. induction t as [|c t IH]; simpl; intros b H.
  - injection H as <-. reflexivity.
  - destruct (N.ltb_spec c 128) as [Hc|Hc]; [|discriminate].
    destruct (encode_ascii t) as [e|s]; [discriminate|].
    injection H as <-. simpl.
    rewrite N_ascii_embedding by lia.
    destruct (N.ltb_spec c 128); [|lia].
    now rewrite (IH s eq_refl).
Qed.

Lemma decode_encode_ascii b t : decode_ascii b = inr t -> encode_ascii t = inr b.
Proof.
  revert t. induction b as [|c b IH]; simpl; intros t H.
  - injection H as <-. reflexivity.
  - destruct (N.ltb_spec (N_of_ascii c) 128) as [Hc|Hc]; [|discriminate].
    destruct (decode_ascii b) as [e|s]; [discriminate|].
    injection H as <-. simpl.
    destruct (N.ltb_spec (N_of_ascii c) 128); [|lia].
    now rewrite (IH s eq_refl), ascii_N_embedding.
Qed.

Lemma encode_ascii_ok_iff t :
  (exists b, encode_ascii t = inr b) <-> Forall (fun c => (c < 128)%N) t.
Proof.
  induction t as [|c t IH]; simpl.
  - split; [constructor | intros _; now exists ""].
  - destruct (N.ltb_spec c 128) as [Hc|Hc].
    + destruct (encode_ascii t) as [e|s].
      * split; [intros [b H]; discriminate|].
        intros H. inversion H as [|? ? _ Ht]; subst.
        apply IH in Ht. destruct Ht as [b Hb]. discriminate.
      * split; [|intros _; eexists; reflexivity].
        intros _. constructor; [assumption|]. apply IH. now exists s.
    + split; [intros [b H]; discriminate|].
      intros H. inversion H; subst. lia.
Qed.

(** X14.  Encoding a parse result to ASCII and decoding it back are
    inverse to each other: when [encode_parse_result] returns, decoding
    its result gives the original, and when [decode_parse_result]
    returns, encoding its result gives the original. *)
Theorem parse_result_round_trip (t : ParseResult text) (b : ParseResult bytes) :
  (encode_parse_result t = inr b -> decode_parse_result b = inr t) /\
  (decode_parse_result b = inr t -> encode_parse_result t = inr b).
Proof.
  destruct t as [t1 t2 t3 t4 t5 t6], b as [b1 b2 b3 b4 b5 b6].
  unfold encode_parse_result, decode_parse_result. simpl. split; intros H.
  - destruct (encode_ascii t1) eqn:E1; [discriminate|].
    destruct (encode_ascii t2) eqn:E2; [discriminate|].
    destruct (encode_ascii t3) eqn:E3; [discriminate|].
    destruct (encode_ascii t4) eqn:E4; [discriminate|].
    destruct (encode_ascii t5) eqn:E5; [discriminate|].
    destruct (encode_ascii t6) eqn:E6; [discriminate|].
    injection H as -> -> -> -> -> ->.
    now rewrite (encode_decode_ascii _ _ E1), (encode_decode_ascii _ _ E2),
      (encode_decode_ascii _ _ E3), (encode_decode_ascii _ _ E4),
      (encode_decode_ascii _ _ E5), (encode_decode_ascii _ _ E6).
  - destruct (decode_ascii b1) eqn:E1; [discriminate|].
    destruct (decode_ascii b2) eqn:E2; [discriminate|].
    destruct (decode_ascii b3) eqn:E3; [discriminate|].
    destruct (decode_ascii b4) eqn:E4; [discriminate|].
    destruct (decode_ascii b5) eqn:E5; [discriminate|].
    destruct (decode_ascii b6) eqn:E6; [discriminate|].
    injection H as -> -> -> -> -> ->.
    now rewrite (decode_encode_ascii _ _ E1), (decode_encode_ascii _ _ E2),
      (decode_encode_ascii _ _ E3), (decode_encode_ascii _ _ E4),
      (decode_encode_ascii _ _ E5), (decode_encode_ascii _ _ E6).
Qed.

Lemma encode_parse_result_error t e :
  encode_parse_result t = inl e -> e = UnicodeError.
Proof.
  unfold encode_parse_result.
  destruct (encode_ascii (scheme t)); [congruence|].
  destruct (encode_ascii (netloc t)); [congruence|].
  destruct (encode_ascii (path t)); [congruence|].
  destruct (encode_ascii (params t)); [congruence|].
  destruct (encode_ascii (query t)); [congruence|].
  destruct (encode_ascii (fragment t)); [congruence|discriminate].
Qed.

Lemma encode_parse_result_ok_iff (t : ParseResult text) :
  (exists b, encode_parse_result t = inr b)
  <-> Forall (fun c => (c < 128)%N) (scheme t) /\
      Forall (fun c => (c < 128)%N) (netloc t) /\
      Forall (fun c => (c < 128)%N) (path t) /\
      Forall (fun c => (c < 128)%N) (params t) /\
      Forall (fun c => (c < 128)%N) (query t) /\
      Forall (fun c => (c < 128)%N) (fragment t).
Proof.
  unfold encode_parse_result.
  rewrite <- !encode_ascii_ok_iff.
  destruct (encode_ascii (scheme t)) as [|b1];
    [split; [intros [b H]; discriminate | intros ([? H] & _); discriminate]|].
  destruct (encode_ascii (netloc t)) as [|b2];
    [split; [intros [b H]; discriminate | intros (_ & [? H] & _); discriminate]|].
  destruct (encode_ascii (path t)) as [|b3];
    [split; [intros [b H]; discriminate
            | intros (_ & _ & [? H] & _); discriminate]|].
  destruct (encode_ascii (params t)) as [|b4];
    [split; [intros [b H]; discriminate
            | intros (_ & _ & _ & [? H] & _); discriminate]|].
  destruct (encode_ascii (query t)) as [|b5];
    [split; [intros [b H]; discriminate
            | intros (_ & _ & _ & _ & [? H] & _); discriminate]|].
  destruct (encode_ascii (fragment t)) as [|b6];
    [split; [intros [b H]; discriminate
            | intros (_ & _ & _ & _ & _ & [? H]); discriminate]|].
  split; [|intros _; eexists; reflexivity].
  intros _. repeat split; eexists; reflexivity.
Qed.

(** X15.  [encode_parse_result] returns exactly when every code point
    of every component is below 128; otherwise it raises
    [UnicodeError]. *)
Theorem encode_parse_result_ascii_only (t : ParseResult text) :
  let ascii := Forall (fun c => (c < 128)%N) in
  ((exists b, encode_parse_result t = inr b)
   <-> ascii (scheme t) /\ ascii (netloc t) /\ ascii (path t) /\
       ascii (params t) /\ ascii (query t) /\ ascii (fragment t)) /\
  (forall e, encode_parse_result t = inl e -> e = UnicodeError).
Proof.
  intros ascii. split;
    [apply encode_parse_result_ok_iff | apply encode_parse_result_error].
Qed.

Lemma parse_checked_error host parsed e :
  parse_checked host parsed = inl e -> is_ValueError e = true.
Proof.
  unfold parse_checked.
  destruct (port_of parsed) as [|p|];
    try (destruct (is_valid_host host); simpl;
         [match goal with |- context [is_valid_port ?x] =>
            destruct (is_valid_port x) end; simpl|]);
    intros H; try discriminate; injection H as <-; reflexivity.
Qed.

(** X16.  When [urlparse] itself raises nothing but [ValueError]s,
    every exception that [parse] raises is a [ValueError] (a
    [UnicodeError] from the codecs included). *)
Theorem parse_raises_only_ValueError url e :
  (forall b e', urlparse_bytes b = inl e' -> is_ValueError e' = true) ->
  (forall t e', urlparse_text t = inl e' -> is_ValueError e' = true) ->
  parse url = inl e -> is_ValueError e = true.
Proof.
  intros Hb Ht. unfold parse.
  destruct (parse_host url) as [e0|[host parsed]] eqn:Hh.
  - intros H. injection H as <-. revert Hh. unfold parse_host.
    destruct url as [b|t].
    + destruct (urlparse_bytes b) as [e1|parsed] eqn:Hu.
      * intros H. injection H as <-. now apply (Hb b).
      * destruct (falsy_bytes (hostname_bytes parsed));
          [intros H; injection H as <-; reflexivity|].
        destruct (hostname_bytes parsed);
          [discriminate | intros H; injection H as <-; reflexivity].
    + destruct (urlparse_text t) as [e1|parsed] eqn:Hu.
      * intros H. injection H as <-. now apply (Ht t).
      * destruct (falsy_text (hostname_text parsed));
          [intros H; injection H as <-; reflexivity|].
        destruct (hostname_text parsed) as [hostname|];
          [|intros H; injection H as <-; reflexivity].
        destruct (encode_idna hostname);
          [|intros H; injection H as <-; reflexivity].
        destruct (encode_parse_result parsed) as [e1|parsed'] eqn:He;
          [|discriminate].
        intros H. injection H as <-.
        now rewrite (encode_parse_result_error _ _ He).
  - apply parse_checked_error.
Qed.

(** X17.  Every result of [parse] carries a host and a port that passed
    [is_valid_host] and [is_valid_port]; a port given in the URL and
    different from zero is returned as it is, and a port given as zero
    is replaced by the default of the scheme, like a missing one. *)
Theorem parse_result_checked url s h p fp :
  parse url = inr (s, h, p, fp) ->
  is_valid_host h = true /\ is_valid_port p = true /\
  exists parsed,
    parse_host url = inr (h, parsed) /\
    (forall q, port_of parsed = PortInt q -> q <> 0 -> p = q) /\
    (port_of parsed = PortInt 0 ->
     p = if String.eqb (scheme parsed) "https" then 443 else 80).
Proof.
  unfold parse. destruct (parse_host url) as [e|[host parsed]]; [discriminate|].
  intros H.
  assert (H0 : port_of parsed = PortInt 0 -> p = default_port_of parsed).
  { intros E. revert H. unfold parse_checked. rewrite E. simpl.
    destruct (is_valid_host host); simpl; [|discriminate].
    destruct (is_valid_port (default_port_of parsed)); simpl; [|discriminate].
    intros H. now injection H as _ _ <- _. }
  apply parse_checked_accepts in H.
  destruct H as (_ & -> & _ & Hh & Hp & _ & Hq).
  split; [exact Hh|]. split; [exact Hp|].
  exists parsed. split; [reflexivity|]. split; [exact Hq | exact H0].
Qed.

(** X18.  The order of the checks of [parse]: a port that cannot be
    read fails first; then an invalid host is reported as "Invalid
    Host" whether or not the port is valid; "Invalid Port" is reported
    only for a valid host. *)
Theorem parse_checks_host_before_port url host parsed :
  parse_host url = inr (host, parsed) ->
  (port_of parsed = PortInvalid ->
   parse url = inl (ValueError "Port out of range 0-65535")) /\
  (port_of parsed <> PortInvalid -> is_valid_host host = false ->
   parse url = inl (ValueError "Invalid Host")) /\
  (parse url = inl (ValueError "Invalid Port") -> is_valid_host host = true).
Proof.
  intros Hh. unfold parse. rewrite Hh. unfold parse_checked.
  split; [|split].
  - intros ->. reflexivity.
  - intros Hp Hv. rewrite Hv.
    destruct (port_of parsed); [reflexivity | reflexivity | now elim Hp].
  - destruct (port_of parsed); try discriminate;
      destruct (is_valid_host host); simpl; try reflexivity; discriminate.
Qed.

(** X19.  The host of a result of [parse]: for a URL given as bytes it
    is the hostname that [urlparse] found, as it is; for a URL given as
    unicode it is the IDNA encoding of that hostname, and the scheme of
    the result is the ASCII encoding of the parsed scheme.  A unicode
    URL whose hostname has no IDNA encoding, or one of whose components
    is not ASCII, raises [UnicodeError]. *)
Theorem parse_host_encoding url s h p fp :
  (parse url = inr (s, h, p, fp) ->
   match url with
   | UrlBytes b =>
       exists parsed, urlparse_bytes b = inr parsed /\
                      hostname_bytes parsed = Some h /\ s = scheme parsed
   | UrlText t =>
       exists parsed hostname,
         urlparse_text t = inr parsed /\
         hostname_text parsed = Some hostname /\
         encode_idna hostname = Some h /\
         encode_ascii (scheme parsed) = inr s
   end) /\
  (forall t parsed hostname,
      url = UrlText t -> urlparse_text t = inr parsed ->
      hostname_text parsed = Some hostname -> hostname <> [] ->
      encode_idna hostname = None \/
      (exists c, In c (scheme parsed ++ netloc parsed ++ path parsed
                         ++ params parsed ++ query parsed
                         ++ fragment parsed)%list /\ (128 <= c)%N) ->
      parse url = inl UnicodeError).
Proof.
  split.
  - unfold parse.
    destruct (parse_host url) as [e|[host parsed]] eqn:Hh; [discriminate|].
    intros H. apply parse_checked_accepts in H.
    destruct H as (-> & -> & _). revert Hh. unfold parse_host.
    destruct url as [b|t].
    + destruct (urlparse_bytes b) as [e|pr]; [discriminate|].
      destruct (falsy_bytes (hostname_bytes pr)); [discriminate|].
      destruct (hostname_bytes pr) as [hn|] eqn:E; [|discriminate].
      intros H. injection H as <- <-. exists pr. auto.
    + destruct (urlparse_text t) as [e|pr]; [discriminate|].
      destruct (falsy_text (hostname_text pr)); [discriminate|].
      destruct (hostname_text pr) as [hn|] eqn:E; [|discriminate].
      destruct (encode_idna hn) as [hb|] eqn:Ei; [|discriminate].
      destruct (encode_parse_result pr) as [e|pr'] eqn:Ep; [discriminate|].
      intros H. injection H as <- <-. exists pr, hn.
      repeat split; try assumption.
      revert Ep. unfold encode_parse_result.
      destruct (encode_ascii (scheme pr)); [discriminate|].
      destruct (encode_ascii (netloc pr)); [discriminate|].
      destruct (encode_ascii (path pr)); [discriminate|].
      destruct (encode_ascii (params pr)); [discriminate|].
      destruct (encode_ascii (query pr)); [discriminate|].
      destruct (encode_ascii (fragment pr)); [discriminate|].
      intros H. now injection H as <-.
  - intros t parsed hostname -> Hu Hn Hne Hbad.
    unfold parse, parse_host. rewrite Hu, Hn.
    destruct hostname as [|c0 hostname]; [now elim Hne|]. simpl.
    destruct Hbad as [->|(c & Hin & Hc)]; [reflexivity|].
    destruct (encode_idna (c0 :: hostname)); [|reflexivity].
    destruct (encode_parse_result parsed) as [e|pr'] eqn:Ep.
    + now rewrite (encode_parse_result_error _ _ Ep).
    + exfalso.
      assert (Hok : exists b, encode_parse_result parsed = inr b)
        by (now exists pr').
      apply encode_parse_result_ok_iff in Hok.
      destruct Hok as (H1 & H2 & H3 & H4 & H5 & H6).
      rewrite !in_app_iff in Hin.
      assert (Hall : forall l, Forall (fun c => (c < 128)%N) l -> In c l -> False).
      { intros l Hl Hi. rewrite Forall_forall in Hl. specialize (Hl c Hi). lia. }
      destruct Hin as [Hi|[Hi|[Hi|[Hi|[Hi|Hi]]]]]; eauto.
Qed.

End ModeServers.

(** * The properties on the sample data *)

(** C1 on a regular instance that is started while the port is taken,
    started again, stopped and started once more. *)
Lemma listen_addrs_empty_unless_running_witness :
  let w := run_calls (rt := linux) regular_instance sample_calls initial_world in
  is_running w = true /\ listen_addrs w = [loopback 8080] /\
  listen_addrs (snd (stop (rt := linux) regular_instance (fun _ => None) w)) = [].
Proof.
  pose proof (listen_addrs_empty_unless_running
                (rt := linux) regular_instance sample_calls initial_world
                eq_refl eq_refl) as H.
  cbv zeta in H. destruct H as (_ & _ & _ & Hstop).
  split; [reflexivity|]. split; [reflexivity|].
  exact (proj2 (Hstop (fun _ => None))).
Defined.

(** C1, as stated, fails: an instance can be running with an empty
    [listen_addrs].  A [start] that binds a server without a socket
    returns and leaves the instance so; and so does a [start] that
    raises because a socket of the bound server does not tell its
    name. *)
Lemma running_with_empty_listen_addrs :
  (let r := start (rt := linux) regular_instance
                  (fun _ => ListenReturns socketless_server) initial_world in
   fst r = inr tt /\ is_running (snd r) = true /\ listen_addrs (snd r) = []) /\
  (let r := start (rt := linux) regular_instance
                  (fun _ => ListenReturns unnamed_server) initial_world in
   is_running (snd r) = true /\ listen_addrs (snd r) = []).
Proof. repeat split. Qed.

(** C2 on a regular instance: a [start] in which the socket of the bound
    server does not tell its name raises "failed to listen" and leaves
    the instance running, and the next [start] fails on its
    assertion. *)
Lemma start_stop_misuse_witness :
  let failing := fun _ : listen_request => ListenReturns unnamed_server in
  let w1 := snd (start (rt := linux) regular_instance failing initial_world) in
  fst (start (rt := linux) regular_instance failing initial_world)
  = inl (OSError 9
           "HTTP(S) proxy failed to listen on *:8080 with [Errno 9] Bad file descriptor"
           None (Some bad_descriptor)) /\
  is_running w1 = true /\
  start (rt := linux) regular_instance
        (fun _ => ListenReturns (bound_at 8080)) w1
  = (inl AssertionError, w1).
Proof.
  intros failing w1.
  destruct (proj2 (proj2 (proj2 (start_stop_misuse (rt := linux)
                                   regular_instance initial_world)))
              eq_refl failing unnamed_server bad_descriptor eq_refl eq_refl)
    as (e' & w1' & E & R & _ & _ & Hnext).
  assert (Hw : w1 = w1') by (subst w1; now rewrite E).
  split; [reflexivity|]. split; [rewrite Hw; exact R|].
  rewrite Hw. apply Hnext.
Defined.

(** C3 on a regular instance with the default port 8080 taken: the
    message suggests ["@8081"]. *)
Lemma start_bind_failure_witness :
  is_running initial_world = false /\
  fst (start (rt := linux) regular_instance
             (fun _ => ListenRaises address_in_use) initial_world)
  = inl (OSError 98
           (listen_failure (rt := linux) regular_instance "" 8080 address_in_use
              ++ port_hint regular_instance 8080)
           None (Some address_in_use)) /\
  str_contains "@8081"
    (listen_failure (rt := linux) regular_instance "" 8080 address_in_use
       ++ port_hint regular_instance 8080) = true.
Proof.
  pose proof (start_bind_failure (rt := linux) regular_instance
                (fun _ => ListenRaises address_in_use) initial_world
                98 "Address already in use" None None eq_refl) as H.
  cbv zeta in H. destruct H as (Hin_use & _ & _).
  destruct (Hin_use eq_refl eq_refl eq_refl eq_refl) as (Hstart & Hport & _).
  split; [reflexivity|]. split.
  - exact (f_equal fst Hstart).
  - exact Hport.
Defined.

(** C3, as stated, fails: when [listen] fails with "permission denied",
    the exception that [start] raises is not that exception but a new
    [OSError] around it, with another message. *)
Lemma start_permission_denied :
  fst (start (rt := linux) regular_instance
             (fun _ => ListenRaises permission_denied) initial_world)
  = inl (OSError 13
           "HTTP(S) proxy failed to listen on *:8080 with [Errno 13] Permission denied"
           None (Some permission_denied)) /\
  fst (start (rt := linux) regular_instance
             (fun _ => ListenRaises permission_denied) initial_world)
  <> inl permission_denied.
Proof. split; [reflexivity | discriminate]. Qed.

(** C4 on a running regular instance whose close raises. *)
Lemma stop_resets_before_close_witness :
  let w := started (bound_at 8080) [loopback 8080] initial_world in
  let closing := fun _ : World => Some (OtherException "RuntimeError") in
  is_running w = true /\
  stop (rt := linux) regular_instance closing w
  = (inl (OtherException "RuntimeError"),
     set_last_exception (Some (OtherException "RuntimeError")) initial_world).
Proof.
  intros w closing.
  pose proof (stop_resets_before_close (rt := linux) regular_instance closing w
                eq_refl) as H.
  cbv zeta in H. destruct H as (_ & _ & _ & _ & _ & Hraise & _).
  destruct (Hraise _ eq_refl) as [Hr Hl].
  split; [reflexivity|].
  destruct (stop regular_instance closing w) as [r w'] eqn:E.
  simpl in Hr. rewrite Hr. f_equal.
  apply (f_equal snd) in E. simpl in E. rewrite <- E. reflexivity.
Defined.

(** C5 on a DNS query with the transaction id [0x1234], which is 4660. *)
Lemma dns_connection_id_witness :
  DnsInstance_make_connection_id (rt := linux)
    [VBytes dns_query; loopback 50000; loopback 53] initial_world
  = (inr (VTuple [VStr "udp"; VTuple [VInt 4660];
                  loopback 50000; loopback 53]), initial_world).
Proof.
  exact (proj1 (dns_connection_id (rt := linux) Byte.x12 Byte.x34
                  (skipn 2 dns_query) (loopback 50000) (loopback 53)
                  initial_world)).
Defined.

(** C5, as stated, fails: the id of a twelve-byte datagram with the
    transaction id [0x1234] is not [("udp", 0x1234, peer, local)]; its
    second component is the tuple [(0x1234,)]. *)
Lemma dns_connection_id_wraps_the_id :
  fst (DnsInstance_make_connection_id (rt := linux)
         [VBytes dns_query; loopback 50000; loopback 53] initial_world)
  <> inr (VTuple [VStr "udp"; VInt 0x1234; loopback 50000; loopback 53]).
Proof. discriminate. Qed.

(** C6 on a DNS instance and a datagram of one byte. *)
Lemma dns_short_datagram_witness :
  cls dns_instance = DnsInstance /\
  (List.length [Byte.x12] < 2)%nat /\
  handle_udp_datagram (rt := linux) dns_instance (VRef 7) (VBytes [Byte.x12])
    (loopback 50000) (loopback 53) initial_world
  = (inl (TypeError "make_connection_id"), initial_world).
Proof.
  split; [reflexivity|]. split; [repeat constructor|].
  exact (proj2 (dns_short_datagram (rt := linux) dns_instance (VRef 7)
                  [Byte.x12] (loopback 50000) (loopback 53) initial_world
                  eq_refl (le_n 2))).
Defined.

(** C7 on a DNS instance and a well-formed query. *)
Lemma handle_udp_datagram_registers_nothing_witness :
  cls dns_instance = DnsInstance /\
  connections
    (snd (handle_udp_datagram (rt := linux) dns_instance (VRef 7)
            (VBytes dns_query) (loopback 50000) (loopback 53) initial_world))
  = [].
Proof.
  split; [reflexivity|].
  pose proof (handle_udp_datagram_registers_nothing (rt := linux) dns_instance
                (VRef 7) (VBytes dns_query) (VBytes dns_query)
                (loopback 50000) (loopback 53) initial_world
                (or_introl eq_refl)) as H.
  cbv zeta in H. destruct H as (_ & Hc & _). exact Hc.
Defined.

(** C8 on the mode [udp:regular]. *)
Lemma UdpInstance_init_raises_witness :
  inner_mode udp_mode = Some regular_mode /\
  UdpInstance_init udp_mode 0 = inl (TypeError "make").
Proof.
  split; [reflexivity|].
  exact (proj1 (UdpInstance_init_raises udp_mode 0) regular_mode eq_refl).
Defined.

(** C9 on a DNS instance whose data is ["resolve-local"]. *)
Lemma is_transparent_bound_method_witness :
  cls dns_instance = DnsInstance /\
  String.eqb (data (mode dns_instance)) "transparent" = false /\
  truthy (is_transparent dns_instance) = true.
Proof.
  split; [reflexivity|]. split; [reflexivity|].
  pose proof (proj1 (is_transparent_bound_method (rt := linux) dns_instance
                       "" 53 (loopback 53)) eq_refl) as (_ & H & _).
  exact H.
Defined.

Lemma in_port_range_rejects p : p < 0 \/ 65535 < p -> in_port_range p = false.
Proof.
  intros H. unfold in_port_range.
  destruct (Z.leb_spec 0 p); destruct (Z.leb_spec p 65535); simpl;
    reflexivity || lia.
Qed.

(** C10 on the sample library: a URL given as unicode and without a
    port, and a URL given as bytes whose port is out of range. *)
Lemma parse_spec_witness :
  (forall p, p < 0 \/ 65535 < p ->
             is_valid_port (Urllib := unicode_urllib) p = false) /\
  parse (lib := unicode_urllib) (UrlText (text_of_string "https://example.com"))
  = inr ("https", "example.com", 443, "/") /\
  startswith "/" "/" = true /\
  (exists e, parse (lib := unicode_urllib)
                   (UrlBytes "http://example.com:99999/x")
             = inl e /\ is_ValueError e = true).
Proof.
  pose proof (parse_spec (lib := unicode_urllib)
                (UrlText (text_of_string "https://example.com"))
                in_port_range_rejects) as (Hok & _).
  pose proof (parse_spec (lib := unicode_urllib)
                (UrlBytes "http://example.com:99999/x")
                in_port_range_rejects) as (_ & _ & _ & Hbad & _).
  split; [exact in_port_range_rejects|]. split; [reflexivity|]. split.
  - exact (proj1 (Hok "https" "example.com" 443 "/" eq_refl)).
  - apply (Hbad "http://example.com:99999/x"
                (mkParseResult "http" "example.com:99999" "/x" "" "" "")
                "example.com" eq_refl eq_refl eq_refl).
    + discriminate.
    + right; right. exists 99999. split; [reflexivity | right; lia].
Defined.

(** X1 on a regular instance whose port is taken. *)
Lemma failed_start_only_records_witness :
  is_running initial_world = false /\
  snd (start (rt := linux) regular_instance
             (fun _ => ListenRaises address_in_use) initial_world)
  = set_last_exception (Some address_in_use) initial_world.
Proof.
  split; [reflexivity|].
  exact (proj1 (failed_start_only_records (rt := linux) regular_instance
                  (fun _ => ListenRaises address_in_use) address_in_use
                  initial_world eq_refl eq_refl)).
Defined.

(** X2 on a regular instance bound to port 8080. *)
Lemma start_then_stop_witness :
  let listening := fun _ : listen_request => ListenReturns (bound_at 8080) in
  let closing := fun _ : World => @None exn in
  ctx_log
    (snd (stop (rt := linux) regular_instance closing
            (snd (start (rt := linux) regular_instance listening
                        initial_world))))
  = [("info", "HTTP(S) proxy listening at 127.0.0.1:8080.");
     ("info", "Stopped HTTP(S) proxy at 127.0.0.1:8080.")].
Proof.
  intros listening closing.
  pose proof (start_then_stop (rt := linux) regular_instance listening closing
                (bound_at 8080) [loopback 8080] initial_world
                eq_refl eq_refl eq_refl eq_refl) as H.
  cbv zeta in H. destruct H as (_ & _ & _ & _ & _ & H).
  exact H.
Defined.

(** X9 on DNS queries with the transaction ids [0x1234] and [0x5678]. *)
Lemma distinct_ids_get_distinct_handlers_witness :
  query_id 4660 <> query_id 22136 /\
  let w :=
    snd (dispatch_datagram (rt := linux) dns_instance (query_id 22136) (VRef 7)
           (VBytes dns_query) (loopback 50000) (loopback 53)
           (snd (dispatch_datagram (rt := linux) dns_instance (query_id 4660)
                   (VRef 7) (VBytes dns_query) (loopback 50000) (loopback 53)
                   initial_world))) in
  dict_get (connections w) (query_id 4660) = Some 0%nat /\
  dict_get (connections w) (query_id 22136) = Some 1%nat.
Proof.
  assert (Hne : query_id 4660 <> query_id 22136) by discriminate.
  split; [exact Hne|].
  pose proof (distinct_ids_get_distinct_handlers (rt := linux) dns_instance
                (query_id 4660) (query_id 22136) (VRef 7)
                (VBytes dns_query) (VBytes dns_query)
                (loopback 50000) (loopback 50000) (loopback 53) initial_world
                eq_refl eq_refl Hne eq_refl eq_refl) as H.
  cbv zeta in H. destruct H as (H1 & H2 & _). split; assumption.
Defined.

(** A connection accepted by a regular instance, on the sample data. *)
Lemma tcp_connection_plain_witness :
  cls regular_instance = RegularInstance /\
  handle_tcp_connection (rt := linux) (pf := failing_platform)
    regular_instance accepted_stream
    (fun cid h => ret (A := unit) tt) initial_world
  = (inr tt, initial_world).
Proof.
  split; [reflexivity|].
  exact (tcp_connection_plain (rt := linux) (pf := failing_platform)
           regular_instance accepted_stream (fun cid h => ret tt)
           initial_world (or_introl eq_refl)).
Defined.

(** X12 on a transparent instance, on a platform whose lookup fails. *)
Lemma tcp_connection_transparent_witness :
  cls transparent_instance = TransparentInstance /\
  handle_tcp_connection (rt := linux) (pf := failing_platform)
    transparent_instance accepted_stream
    (fun cid h => ret (A := unit) tt) initial_world
  = (inr tt,
     set_ctx_log [("error", "Transparent mode failure: RuntimeError()")]
                 initial_world).
Proof.
  split; [reflexivity|].
  pose proof (tcp_connection_transparent (rt := linux) (pf := failing_platform)
                transparent_instance accepted_stream (fun cid h => ret tt)
                initial_world eq_refl) as H.
  cbv zeta in H. destruct H as (_ & _ & H).
  exact (H _ (OtherException "RuntimeError") eq_refl eq_refl).
Defined.

Lemma sample_urlparse_raises_ValueError table b e :
  sample_urlparse table b = inl e -> is_ValueError e = true.
Proof.
  induction table as [|[u r] table IH]; simpl.
  - intros H. now injection H as <-.
  - destruct (String.eqb u b); [discriminate | exact IH].
Qed.

(** X16 on the sample library and a URL that it does not know. *)
Lemma parse_raises_only_ValueError_witness :
  parse (lib := sample_urllib) (UrlBytes "ftp://nowhere")
  = inl (ValueError "not in the table") /\
  is_ValueError (ValueError "not in the table") = true.
Proof.
  split; [reflexivity|].
  apply (parse_raises_only_ValueError (lib := sample_urllib)
           (UrlBytes "ftp://nowhere")).
  - intros b e'. apply sample_urlparse_raises_ValueError.
  - intros t e' H. now injection H as <-.
  - reflexivity.
Defined.

(** X17 on a URL without a port. *)
Lemma parse_result_checked_witness :
  parse (lib := sample_urllib) (UrlBytes "https://example.com")
  = inr ("https", "example.com", 443, "/") /\
  is_valid_port (Urllib := sample_urllib) 443 = true.
Proof.
  split; [reflexivity|].
  exact (proj1 (proj2 (parse_result_checked (lib := sample_urllib)
                         (UrlBytes "https://example.com")
                         "https" "example.com" 443 "/" eq_refl))).
Defined.

(** X18 on a URL whose port is out of range. *)
Lemma parse_checks_host_before_port_witness :
  parse_host (lib := sample_urllib) (UrlBytes "http://example.com:99999/x")
  = inr ("example.com",
         mkParseResult "http" "example.com:99999" "/x" "" "" "") /\
  parse (lib := sample_urllib) (UrlBytes "http://example.com:99999/x")
  = inl (ValueError "Invalid Port") /\
  is_valid_host (Urllib := sample_urllib) "example.com" = true.
Proof.
  split; [reflexivity|]. split; [reflexivity|].
  pose proof (parse_checks_host_before_port (lib := sample_urllib)
                (UrlBytes "http://example.com:99999/x") "example.com"
                (mkParseResult "http" "example.com:99999" "/x" "" "" "")
                eq_refl) as (_ & _ & H).
  exact (H eq_refl).
Defined.
